(** * ThreadPulse Daily: the deterministic daily game engine

    A shallow embedding of [src/core/dailyGameEngine.ts] (day key, FNV-1a
    seed, Mulberry32 draw, puzzle selection, guess evaluation, scoring,
    clue validation and ranking) and of the guess-submission transition of
    [src/hooks/useGameStore.ts], followed by the properties the
    specification states about them.

    Conventions of the embedding.
    - JavaScript numbers that hold integers are [Z]; every 32-bit
      conversion ([ToInt32], [ToUint32]) is written out.
    - Strings are [string]: sequences of code units below 256 (Latin-1),
      on which [toLowerCase], [trim] and [charCodeAt] are defined exactly
      as ECMAScript defines them for these code units.
    - A [Date] is its time value ([Valid t], milliseconds since the epoch)
      or the invalid date ([Invalid], time value NaN).
    - [undefined] read from an array out of range is [None]. *)

From Stdlib Require Import ZArith List String Ascii Bool Lia.
From Stdlib Require Import DecimalString Permutation Sorted QArith.
Import ListNotations.

Local Open Scope string_scope.
Local Open Scope Z_scope.

(* ================================================================== *)
(** * Part I: the model *)
(* ================================================================== *)

(** ** 32-bit integer conversions and operators of ECMAScript *)

Module Int32.

Definition two32 : Z := 4294967296.
Definition two31 : Z := 2147483648.

(** [x >>> 0] *)
Definition ToUint32 (x : Z) : Z := x mod two32.

(** the conversion applied to the operands of [^], [|] *)
Definition ToInt32 (x : Z) : Z :=
  let u := ToUint32 x in if u <? two31 then u else u - two32.

(** [a ^ b] *)
Definition xor (a b : Z) : Z := Z.lxor (ToInt32 a) (ToInt32 b).

(** [a | b] *)
Definition or (a b : Z) : Z := Z.lor (ToInt32 a) (ToInt32 b).

(** [a >>> k], for a shift count [0 <= k < 32] *)
Definition ushr (a k : Z) : Z := Z.shiftr (ToUint32 a) k.

(** [Math.imul(a, b)] *)
Definition imul (a b : Z) : Z := ToInt32 ((ToUint32 a * ToUint32 b) mod two32).

End Int32.

(** ** Strings *)

Module Str.

Definition charCode (c : ascii) : Z := Z.of_N (N_of_ascii c).

Definition fromCharCode (n : Z) : ascii := ascii_of_N (Z.to_N n).

(** the code units of a string, in order: [s.charCodeAt(i)] for
    [i = 0 .. s.length - 1] *)
Fixpoint charCodes (s : string) : list Z :=
  match s with
  | EmptyString => []
  | String c rest => charCode c :: charCodes rest
  end.

Definition inRange (lo hi : Z) (c : ascii) : bool :=
  (lo <=? charCode c) && (charCode c <=? hi).

(** Lower-case mapping of one Latin-1 code unit: [A-Z] and the accented
    capitals U+00C0..U+00DE (except the multiplication sign U+00D7) move
    up by 32; everything else is its own lower case. Beyond Latin-1 two
    more code points lower-case to text with an ASCII letter (U+0130 to
    [i] and U+0307, U+212A to [k]); they are outside this model, so what
    is said below about text without letters or digits is said of ASCII
    text only. *)
Definition lowerChar (c : ascii) : ascii :=
  if inRange 65 90 c then fromCharCode (charCode c + 32)
  else if inRange 192 222 c && negb (charCode c =? 215)
       then fromCharCode (charCode c + 32)
       else c.

(** [s.toLowerCase()] *)
Fixpoint toLowerCase (s : string) : string :=
  match s with
  | EmptyString => EmptyString
  | String c rest => String (lowerChar c) (toLowerCase rest)
  end.

(** White space and line terminators among the Latin-1 code units:
    TAB, LF, VT, FF, CR, SPACE, NBSP. *)
Definition isWhiteSpace (c : ascii) : bool :=
  inRange 9 13 c || (charCode c =? 32) || (charCode c =? 160).

Fixpoint trimStart (s : string) : string :=
  match s with
  | EmptyString => EmptyString
  | String c rest => if isWhiteSpace c then trimStart rest else s
  end.

Fixpoint trimEnd (s : string) : string :=
  match s with
  | EmptyString => EmptyString
  | String c rest =>
      match trimEnd rest with
      | EmptyString => if isWhiteSpace c then EmptyString else String c EmptyString
      | kept => String c kept
      end
  end.

(** [s.trim()] *)
Definition trim (s : string) : string := trimEnd (trimStart s).

(** [s.length] *)
Definition len (s : string) : Z := Z.of_nat (String.length s).

(** [s.includes(sub)]: [sub] occurs in [s] at some position; the empty
    string occurs in every string. *)
Fixpoint includes (s sub : string) : bool :=
  String.prefix sub s ||
  match s with
  | EmptyString => false
  | String _ rest => includes rest sub
  end.

(** the characters of [s] that satisfy [keep], in order *)
Fixpoint filter (keep : ascii -> bool) (s : string) : string :=
  match s with
  | EmptyString => EmptyString
  | String c rest => if keep c then String c (filter keep rest) else filter keep rest
  end.

Fixpoint forallb (p : ascii -> bool) (s : string) : bool :=
  match s with
  | EmptyString => true
  | String c rest => p c && forallb p rest
  end.

(** [String(n)] for an integer [n] *)
Definition ofZ (n : Z) : string := NilZero.string_of_int (Z.to_int n).

(** [s.padStart(2, "0")] *)
Definition padStart2 (s : string) : string :=
  match String.length s with
  | O => "00"
  | S O => String "0"%char s
  | _ => s
  end.

End Str.

(** ** Dates: the UTC calendar fields of a time value *)

Module JsDate.

Inductive t : Type :=
| Valid (timeValue : Z)
| Invalid.

Definition msPerDay : Z := 86400000.

(** [Day(t)] of ECMA-262 *)
Definition Day (tv : Z) : Z := tv / msPerDay.

(** [DaysInYear(y)], [DayFromYear(y)] and [InLeapYear] of ECMA-262 *)
Definition DaysInYear (y : Z) : Z :=
  if negb (y mod 4 =? 0) then 365
  else if negb (y mod 100 =? 0) then 366
  else if negb (y mod 400 =? 0) then 365
  else 366.

Definition DayFromYear (y : Z) : Z :=
  365 * (y - 1970) + (y - 1969) / 4 - (y - 1901) / 100 + (y - 1601) / 400.

Definition InLeapYear (y : Z) : Z := if DaysInYear y =? 366 then 1 else 0.

(** The year of a day number: ECMA-262 defines [YearFromTime(t)] as the
    largest [y] with [DayFromYear(y) <= Day(t)]. It is computed in closed
    form: the day number is counted from 0000-03-01, so that a leap day is
    the last day of a shifted year and of a 400-year era of 146097 days;
    [yoe] is the year of the era, [mp] the month counted from March. *)
Definition YearFromDay (days : Z) : Z :=
  let z := days + 719468 in
  let era := z / 146097 in
  let doe := z - era * 146097 in
  let yoe := (doe - doe / 1460 + doe / 36524 - doe / 146096) / 365 in
  let doy := doe - (365 * yoe + yoe / 4 - yoe / 100) in
  let mp := (5 * doy + 2) / 153 in
  yoe + era * 400 + (if mp <? 10 then 0 else 1).

Definition DayWithinYear (days : Z) : Z := days - DayFromYear (YearFromDay days).

(** [MonthFromTime] (0..11) and [DateFromTime] (1..31) of ECMA-262, by the
    table of month boundaries within the year *)
Definition MonthFromDay (days : Z) : Z :=
  let dwy := DayWithinYear days in
  let leap := InLeapYear (YearFromDay days) in
  if dwy <? 31 then 0
  else if dwy <? 59 + leap then 1
  else if dwy <? 90 + leap then 2
  else if dwy <? 120 + leap then 3
  else if dwy <? 151 + leap then 4
  else if dwy <? 181 + leap then 5
  else if dwy <? 212 + leap then 6
  else if dwy <? 243 + leap then 7
  else if dwy <? 273 + leap then 8
  else if dwy <? 304 + leap then 9
  else if dwy <? 334 + leap then 10
  else 11.

(** the day within the year on which month [m] (0..11) starts *)
Definition monthStart (m leap : Z) : Z :=
  if m =? 0 then 0
  else if m =? 1 then 31
  else if m =? 2 then 59 + leap
  else if m =? 3 then 90 + leap
  else if m =? 4 then 120 + leap
  else if m =? 5 then 151 + leap
  else if m =? 6 then 181 + leap
  else if m =? 7 then 212 + leap
  else if m =? 8 then 243 + leap
  else if m =? 9 then 273 + leap
  else if m =? 10 then 304 + leap
  else 334 + leap.

Definition DateFromDay (days : Z) : Z :=
  DayWithinYear days
  - monthStart (MonthFromDay days) (InLeapYear (YearFromDay days)) + 1.

(** [MakeDay(year, month, date)] for a month in 0..11 *)
Definition MakeDay (y m d : Z) : Z :=
  DayFromYear y + monthStart m (InLeapYear y) + d - 1.

(** [d.getUTCFullYear()], [d.getUTCMonth()] (0..11), [d.getUTCDate()];
    [None] is NaN, the answer for the invalid date. *)
Definition getUTCFullYear (d : t) : option Z :=
  match d with
  | Valid tv => Some (YearFromDay (Day tv))
  | Invalid => None
  end.

Definition getUTCMonth (d : t) : option Z :=
  match d with
  | Valid tv => Some (MonthFromDay (Day tv))
  | Invalid => None
  end.

Definition getUTCDate (d : t) : option Z :=
  match d with
  | Valid tv => Some (DateFromDay (Day tv))
  | Invalid => None
  end.

(** [String(x)] for a number that is an integer or NaN *)
Definition numberToString (x : option Z) : string :=
  match x with
  | Some n => Str.ofZ n
  | None => "NaN"
  end.

(** [x + 1] on a number that is an integer or NaN *)
Definition succ (x : option Z) : option Z := option_map (fun n => n + 1) x.

End JsDate.

(** ** The engine: [src/core/dailyGameEngine.ts] *)

Record Puzzle : Type := mkPuzzle {
  puzzle_id : string;
  puzzle_answer : string;
  puzzle_category : string;
  puzzle_title : string;
  puzzle_hints : list string;
  puzzle_subredditTags : list string
}.

Record DailyResult : Type := mkDailyResult {
  dayKey : string;
  seed : Z;
  index : Z;
  puzzle : option Puzzle
}.

(** A call either returns a value or throws [Error(message)]. *)
Inductive result (A : Type) : Type :=
| Ok (value : A)
| Throw (message : string).
Arguments Ok {A} value.
Arguments Throw {A} message.

Definition BLOCKED_TERMS : list string :=
  ["http://"; "https://"; "discord.gg"; "t.me/"].

Definition toUtcDayKey (inputDate : JsDate.t) : string :=
  let d := inputDate in
  let year := JsDate.getUTCFullYear d in
  let month := Str.padStart2 (JsDate.numberToString (JsDate.succ (JsDate.getUTCMonth d))) in
  let day := Str.padStart2 (JsDate.numberToString (JsDate.getUTCDate d)) in
  (JsDate.numberToString year ++ "-" ++ month ++ "-" ++ day)%string.

(** The loop of [daySeed]: one iteration per code unit,
    [hash ^= code; hash = Math.imul(hash, 16777619)]. *)
Fixpoint daySeedLoop (hash : Z) (codes : list Z) : Z :=
  match codes with
  | [] => hash
  | code :: rest =>
      let hash1 := Int32.xor hash code in
      let hash2 := Int32.imul hash1 16777619 in
      daySeedLoop hash2 rest
  end.

Definition daySeed (dayKey : string) : Z :=
  Int32.ToUint32 (daySeedLoop 2166136261 (Str.charCodes dayKey)).

(** [mulberry32(seed)] returns a closure over the counter [t]; the closure
    is modelled by its state. [mulberry32_init] is the state after
    [let t = seed >>> 0], [mulberry32_next] one call of the closure: the
    new state and the 32-bit numerator [u] of the returned number
    [u / 4294967296]. The counter is a JavaScript number and is not
    wrapped by [t += 0x6d2b79f5]; the bit operators wrap their operands. *)
Definition mulberry32_init (seed : Z) : Z := Int32.ToUint32 seed.

Definition mulberry32_next (t : Z) : Z * Z :=
  let t := t + 1831565813 in
  let v := Int32.imul (Int32.xor t (Int32.ushr t 15)) (Int32.or t 1) in
  let v := Int32.xor v (v + Int32.imul (Int32.xor v (Int32.ushr v 7)) (Int32.or v 61)) in
  (t, Int32.ToUint32 (Int32.xor v (Int32.ushr v 14))).

(** ** Double-precision product of a draw and a length

    A draw is [u / 2^32] with [0 <= u < 2^32], exact as a double. Its
    product with an array length [n] is the real number [u * n / 2^32]
    rounded to 53 significant bits, ties to even; scaling by [2^32] is
    exact, so the rounding is that of the integer [u * n]. *)
Definition round53 (m : Z) : Z :=
  let k := Z.log2 m - 52 in
  if k <=? 0 then m
  else
    let unit := 2 ^ k in
    let q := m / unit in
    let r := m mod unit in
    let half := unit / 2 in
    let q' := if r <? half then q
              else if half <? r then q + 1
              else if Z.even q then q else q + 1 in
    q' * unit.

(** [Math.floor(draw * length)] for the draw of numerator [u] *)
Definition floorDrawTimes (u length : Z) : Z :=
  round53 (u * length) / Int32.two32.

Definition pickDailyPuzzle (inputDate : JsDate.t) (bank : list Puzzle)
  : result DailyResult :=
  if (Z.of_nat (List.length bank) =? 0) then Throw "Puzzle bank cannot be empty."
  else
    let dayKey := toUtcDayKey inputDate in
    let seed := daySeed dayKey in
    let rng := mulberry32_init seed in
    let '(_, u) := mulberry32_next rng in
    let index := floorDrawTimes u (Z.of_nat (List.length bank)) in
    let puzzle := nth_error bank (Z.to_nat index) in
    Ok {| dayKey := dayKey; seed := seed; index := index; puzzle := puzzle |}.

(** [normalizeText]: lower-case, delete every match of [/[^a-z0-9]/g],
    trim. *)
Definition isLowerAlnum (c : ascii) : bool :=
  Str.inRange 97 122 c || Str.inRange 48 57 c.

Definition normalizeText (value : string) : string :=
  Str.trim (Str.filter isLowerAlnum (Str.toLowerCase value)).

Record GuessEvaluation : Type := mkGuessEvaluation {
  normalizedGuess : string;
  normalizedAnswer : string;
  correct : bool
}.

Definition evaluateGuess (guess answer : string) : GuessEvaluation :=
  let normalizedGuess := normalizeText guess in
  let normalizedAnswer := normalizeText answer in
  {| normalizedGuess := normalizedGuess;
     normalizedAnswer := normalizedAnswer;
     correct := (0 <? Str.len normalizedGuess)
                && String.eqb normalizedGuess normalizedAnswer |}.

Record ScoreParams : Type := mkScoreParams {
  sp_correct : bool;
  sp_hintsUsed : Z;
  sp_timeSeconds : Z;
  sp_streakDays : Z
}.

Definition computeScore (p : ScoreParams) : Z :=
  if negb (sp_correct p) then 0
  else
    let baseScore := 100 in
    let hintPenalty := Z.max 0 (sp_hintsUsed p - 1) * 15 in
    let timePenalty := Z.min 35 (Z.max 0 (sp_timeSeconds p) / 6) in
    let streakBonus := Z.min 25 (Z.max 0 (sp_streakDays p) / 2) in
    Z.max 5 (baseScore - hintPenalty - timePenalty + streakBonus).

(** Options of the validator; an omitted field is [None]. *)
Record CommunityClueOptions : Type := mkOptions {
  forbiddenWords : option (list string);
  existingClues : option (list string)
}.

Definition noOptions : CommunityClueOptions :=
  {| forbiddenWords := None; existingClues := None |}.

Record ValidationResult : Type := mkValidation {
  valid : bool;
  reason : string
}.

(** [for (const term of BLOCKED_TERMS) if (lower.includes(term)) return ...] *)
Fixpoint anyBlockedTerm (lower : string) (terms : list string) : bool :=
  match terms with
  | [] => false
  | term :: rest => if Str.includes lower term then true else anyBlockedTerm lower rest
  end.

(** [for (const forbidden of forbiddenWords) ...]: a forbidden word whose
    normal form is empty is skipped by the guard [normalizedForbidden &&]. *)
Fixpoint anyForbidden (normalizedRaw : string) (words : list string) : bool :=
  match words with
  | [] => false
  | forbidden :: rest =>
      let normalizedForbidden := normalizeText forbidden in
      if negb (String.eqb normalizedForbidden "")
         && Str.includes normalizedRaw normalizedForbidden
      then true
      else anyForbidden normalizedRaw rest
  end.

Definition orEmpty (field : option (list string)) : list string :=
  match field with
  | Some l => l
  | None => []
  end.

(** [validateCommunityClue(text, options = {})]; on a string,
    [String(text || "")] is the string itself. *)
Definition validateCommunityClue (text : string) (options : CommunityClueOptions)
  : ValidationResult :=
  let raw := Str.trim text in
  if Str.len raw <? 8 then
    {| valid := false; reason := "Clue must be at least 8 characters." |}
  else if 180 <? Str.len raw then
    {| valid := false; reason := "Clue must be 180 characters or fewer." |}
  else
    let lower := Str.toLowerCase raw in
    if anyBlockedTerm lower BLOCKED_TERMS then
      {| valid := false; reason := "Links are not allowed in clues." |}
    else
      let forbiddenWords := orEmpty (forbiddenWords options) in
      let normalizedRaw := normalizeText raw in
      if anyForbidden normalizedRaw forbiddenWords then
        {| valid := false; reason := "Clue cannot contain the answer." |}
      else
        let existingClues := orEmpty (existingClues options) in
        let duplicate :=
          existsb (fun item => String.eqb (normalizeText item) normalizedRaw)
                  existingClues in
        if duplicate then
          {| valid := false; reason := "This clue already exists for today." |}
        else {| valid := true; reason := "ok" |}.

(** The [createdAt] field of a clue: a [Date] object with its time value,
    or a value that is not a [Date] (a clue read back from storage carries
    the ISO string that [JSON.stringify] wrote). *)
Inductive CreatedAt : Type :=
| DateAt (timeValue : Z)
| NotADate.

(** [CommunityClue]; the [aiAnalysis] record of display scores is not read
    by the engine and is left out. *)
Record CommunityClue : Type := mkClue {
  clue_id : string;
  clue_text : string;
  clue_author : string;
  clue_upvotes : Z;
  clue_modBoost : Z;
  clue_createdAt : CreatedAt;
  clue_approved : bool
}.

(** [Array.prototype.sort(compare)]: a stable sort; with a consistent
    comparator its result is the one stable ordering, computed here by
    insertion from the right. [compare a b <= 0] keeps [a] before [b]. *)
Section Sort.
Context {A : Type} (compare : A -> A -> Z).

Fixpoint insertSorted (x : A) (l : list A) : list A :=
  match l with
  | [] => [x]
  | y :: rest => if compare x y <=? 0 then x :: l else y :: insertSorted x rest
  end.

Fixpoint sortBy (l : list A) : list A :=
  match l with
  | [] => []
  | x :: rest => insertSorted x (sortBy rest)
  end.
End Sort.

(** [l.slice(0, limit)] for an integer [limit]: a negative end counts from
    the end of the array. *)
Definition slice0 {A : Type} (l : list A) (limit : Z) : list A :=
  let n := Z.of_nat (List.length l) in
  let final := if limit <? 0 then Z.max (n + limit) 0 else Z.min limit n in
  firstn (Z.to_nat final) l.

(** [x || 0] on an integer *)
Definition orZero (x : Z) : Z := if x =? 0 then 0 else x.

Definition clueScore (c : CommunityClue) : Z :=
  orZero (clue_upvotes c) + orZero (clue_modBoost c) * 3.

(** [c.createdAt instanceof Date ? c.createdAt.getTime() : 0] *)
Definition clueTime (c : CommunityClue) : Z :=
  match clue_createdAt c with
  | DateAt tv => tv
  | NotADate => 0
  end.

(** the comparator passed to [sort] *)
Definition compareClues (a b : CommunityClue) : Z :=
  let scoreA := clueScore a in
  let scoreB := clueScore b in
  if negb (scoreA =? scoreB) then scoreB - scoreA
  else
    let dateA := clueTime a in
    let dateB := clueTime b in
    dateB - dateA.

(** the default parameter [limit = 5]; [None] is the omitted argument *)
Definition effectiveLimit (limit : option Z) : Z :=
  match limit with
  | Some n => n
  | None => 5
  end.

(** [rankCommunityClues(clues, limit = 5)]. The first filter,
    [item && typeof item.text === "string"], keeps every element of a
    [CommunityClue[]]. *)
Definition rankCommunityClues (clues : list CommunityClue) (limit : option Z)
  : list CommunityClue :=
  let limit := effectiveLimit limit in
  slice0
    (sortBy compareClues
       (List.filter (fun item => valid (validateCommunityClue (clue_text item) noOptions))
          (List.filter (fun _ => true) clues)))
    limit.

(** ** The session store: [src/hooks/useGameStore.ts] *)

Definition MAX_GUESSES : Z := 6.

Record Guess : Type := mkGuess {
  guess_text : string;
  guess_timestamp : Z;
  guess_hintsUsed : Z;
  guess_correct : bool
}.

Record PlayerDailyState : Type := mkPlayerState {
  guesses : list Guess;
  hintsUnlocked : Z;
  score : Z;
  completed : bool;
  timeStarted : JsDate.t;
  timeCompleted : option Z;
  streak : Z
}.

(** [DailyGameState]; the puzzle keeps the fields the engine reads, the
    leaderboard is always empty in this store and is left out. *)
Record DailyGameState : Type := mkGame {
  game_dayKey : string;
  game_puzzle : Puzzle;
  playerState : PlayerDailyState;
  communityClues : list CommunityClue;
  game_timestamp : Z
}.

(** The streak entry of [localStorage] after [JSON.parse]. *)
Record StreakRecord : Type := mkStreak {
  lastSolvedDay : option string;
  streakDays : Z
}.

(** [localStorage]: the parsed streak entry ([None] when the key is absent
    or unreadable) and whether [setItem] succeeds. *)
Record Storage : Type := mkStorage {
  stored_streak : option StreakRecord;
  writable : bool
}.

(** The state the hook holds: the two React state cells and the storage
    behind it. *)
Record Store : Type := mkStore {
  currentGame : option DailyGameState;
  error : option string;
  storage : Storage
}.

Definition setError (e : option string) (st : Store) : Store :=
  {| currentGame := currentGame st; error := e; storage := storage st |}.

Definition setCurrentGame (g : DailyGameState) (st : Store) : Store :=
  {| currentGame := Some g; error := error st; storage := storage st |}.

Definition setStorage (s : Storage) (st : Store) : Store :=
  {| currentGame := currentGame st; error := error st; storage := s |}.

Definition getStreakState (s : Storage) : StreakRecord :=
  match stored_streak s with
  | Some r => r
  | None => {| lastSolvedDay := None; streakDays := 0 |}
  end.

Definition digitValue (c : ascii) : option Z :=
  if Str.inRange 48 57 c then Some (Str.charCode c - 48) else None.

(** number of days of month [m] (1..12) of year [y] *)
Definition daysInMonth (y m : Z) : Z :=
  if m =? 2 then 28 + JsDate.InLeapYear y
  else if (m =? 4) || (m =? 6) || (m =? 9) || (m =? 11) then 30 else 31.

(** [new Date(dayKey + "T00:00:00Z")]: the date-time string format
    [YYYY-MM-DDT00:00:00Z] with a four-digit year; any other text, or a
    day the month does not have, gives the invalid date. *)
Definition parseDayKey (dayKey : string) : JsDate.t :=
  match dayKey with
  | String y1 (String y2 (String y3 (String y4 (String s1
      (String m1 (String m2 (String s2 (String d1 (String d2 EmptyString))))))))) =>
      match digitValue y1, digitValue y2, digitValue y3, digitValue y4,
            digitValue m1, digitValue m2, digitValue d1, digitValue d2 with
      | Some a, Some b, Some c, Some d, Some e, Some f, Some g, Some h =>
          let y := 1000 * a + 100 * b + 10 * c + d in
          let m := 10 * e + f in
          let dd := 10 * g + h in
          if (Str.charCode s1 =? 45) && (Str.charCode s2 =? 45)
             && (1 <=? m) && (m <=? 12) && (1 <=? dd) && (dd <=? daysInMonth y m)
          then JsDate.Valid (JsDate.MakeDay y (m - 1) dd * JsDate.msPerDay)
          else JsDate.Invalid
      | _, _, _, _, _, _, _, _ => JsDate.Invalid
      end
  | _ => JsDate.Invalid
  end.

(** [d.setUTCDate(d.getUTCDate() + days)] *)
Definition addUTCDays (d : JsDate.t) (days : Z) : JsDate.t :=
  match d with
  | JsDate.Valid tv => JsDate.Valid (tv + days * JsDate.msPerDay)
  | JsDate.Invalid => JsDate.Invalid
  end.

Definition shiftUtcDay (dayKey : string) (days : Z) : string :=
  toUtcDayKey (addUTCDays (parseDayKey dayKey) days).

Definition optStringEqb (a : option string) (b : string) : bool :=
  match a with
  | Some s => String.eqb s b
  | None => false
  end.

(** [updateStreak(dayKey)]: the returned streak and the storage after the
    call; a failing [setItem] is caught and leaves the storage as it was. *)
Definition updateStreak (dayKey : string) (s : Storage) : Z * Storage :=
  let streak := getStreakState s in
  if optStringEqb (lastSolvedDay streak) dayKey then (streakDays streak, s)
  else
    let yesterday := shiftUtcDay dayKey (-1) in
    let next :=
      {| lastSolvedDay := Some dayKey;
         streakDays := if optStringEqb (lastSolvedDay streak) yesterday
                       then streakDays streak + 1 else 1 |} in
    let s' := if writable s
              then {| stored_streak := Some next; writable := writable s |}
              else s in
    (streakDays next, s').

(** the inline normalisation of [submitGuess], the same pipeline as
    [normalizeText] *)
Definition normalizeInline (s : string) : string :=
  Str.trim (Str.filter isLowerAlnum (Str.toLowerCase s)).

(** [Math.max(1, Math.round((Date.now() - startedAt.getTime()) / 1000))],
    or 0 when the start time is the invalid date. [Math.round] rounds a
    half upwards. *)
Definition elapsedSeconds (now : Z) (startedAt : JsDate.t) : Z :=
  match startedAt with
  | JsDate.Invalid => 0
  | JsDate.Valid started => Z.max 1 ((now - started + 500) / 1000)
  end.

Definition guessesLeftMessage (left : Z) : string :=
  ("Not correct yet. " ++ Str.ofZ left ++ " guesses left.")%string.

(** [submitGuess(guess)] at the instant [now]: the returned boolean and the
    store after the call. *)
Definition submitGuess (now : Z) (guess : string) (st : Store) : bool * Store :=
  match currentGame st with
  | None => (false, st)
  | Some game =>
      let ps := playerState game in
      if completed ps then (false, st)
      else if MAX_GUESSES <=? Z.of_nat (List.length (guesses ps)) then
        (false, setError (Some "No guesses remaining for today.") st)
      else
        let normalizedGuess := normalizeInline guess in
        let alreadyTried :=
          existsb (fun item => String.eqb (normalizeInline (guess_text item)) normalizedGuess)
                  (guesses ps) in
        if alreadyTried then
          (false, setError (Some "You already tried that guess.") st)
        else
          let evaluation := evaluateGuess guess (puzzle_answer (game_puzzle game)) in
          let timeSeconds := elapsedSeconds now (timeStarted ps) in
          let nextScore :=
            computeScore {| sp_correct := correct evaluation;
                            sp_hintsUsed := hintsUnlocked ps;
                            sp_timeSeconds := timeSeconds;
                            sp_streakDays := streak ps |} in
          let newGuess :=
            {| guess_text := guess; guess_timestamp := now;
               guess_hintsUsed := hintsUnlocked ps;
               guess_correct := correct evaluation |} in
          let '(nextStreak, storage') :=
            if correct evaluation then updateStreak (game_dayKey game) (storage st)
            else (streak ps, storage st) in
          let game' :=
            {| game_dayKey := game_dayKey game;
               game_puzzle := game_puzzle game;
               playerState :=
                 {| guesses := guesses ps ++ [newGuess];
                    hintsUnlocked := hintsUnlocked ps;
                    score := nextScore;
                    completed := correct evaluation;
                    timeStarted := timeStarted ps;
                    timeCompleted := if correct evaluation then Some now
                                     else timeCompleted ps;
                    streak := nextStreak |};
               communityClues := communityClues game;
               game_timestamp := game_timestamp game |} in
          let st1 := setCurrentGame game' (setStorage storage' st) in
          let used := Z.of_nat (List.length (guesses ps)) + 1 in
          let st2 :=
            if correct evaluation then setError None st1
            else if MAX_GUESSES <=? used then
              setError (Some "Round complete. Try again on the next daily puzzle.") st1
            else setError (Some (guessesLeftMessage (MAX_GUESSES - used))) st1 in
          (correct evaluation, st2)
  end.

(** ** The specification's own wording

    Definitions that follow the text of the specification, to be compared
    with the definitions above, which follow the code. *)

Module Spec.

(** FNV-1a, 32 bits: offset basis, then per code unit an exclusive or
    followed by a multiplication by the prime modulo 2^32. *)
Definition fnvOffsetBasis : Z := 2166136261.
Definition fnvPrime : Z := 16777619.

Definition fnvStep (acc code : Z) : Z := (Z.lxor acc code * fnvPrime) mod 2 ^ 32.

Definition fnv1a32 (codes : list Z) : Z := fold_left fnvStep codes fnvOffsetBasis.

(** the score of a correct solve *)
Definition scoreFormula (hintsUsed timeSeconds streakDays : Z) : Z :=
  Z.max 5
    (100 - Z.max 0 (hintsUsed - 1) * 15
         - Z.min 35 (Z.max 0 timeSeconds / 6)
         + Z.min 25 (Z.max 0 streakDays / 2)).

(** an ASCII letter of either case, or an ASCII digit *)
Definition isAsciiAlnum (c : ascii) : bool :=
  Str.inRange 65 90 c || Str.inRange 97 122 c || Str.inRange 48 57 c.

(** an ASCII character that is neither a letter nor a digit: punctuation,
    a symbol, white space or a control character *)
Definition isAsciiNonAlnum (c : ascii) : bool :=
  (Str.charCode c <? 128) && negb (isAsciiAlnum c).

(** lower-case, then drop every character that is not an ASCII letter
    or digit *)
Definition normalize (s : string) : string :=
  Str.filter isAsciiAlnum (Str.toLowerCase s).

(** [sub] occurs in [s] *)
Definition Occurs (sub s : string) : Prop :=
  exists before after, s = (before ++ sub ++ after)%string.

(** the five rules of the clue validator, on the trimmed text *)
Definition TooShort (text : string) : Prop := Str.len (Str.trim text) < 8.

Definition TooLong (text : string) : Prop := 180 < Str.len (Str.trim text).

Definition HasLink (text : string) : Prop :=
  exists term, In term BLOCKED_TERMS
               /\ Occurs term (Str.toLowerCase (Str.trim text)).

(** rule 4 as the specification words it *)
Definition HasForbiddenWord (text : string) (words : list string) : Prop :=
  exists w, In w words /\ Occurs (normalize w) (normalize (Str.trim text)).

(** rule 4 with the guard of the code: a forbidden word counts only when
    its normal form is not empty *)
Definition HasNonEmptyForbiddenWord (text : string) (words : list string) : Prop :=
  exists w, In w words /\ normalize w <> ""
            /\ Occurs (normalize w) (normalize (Str.trim text)).

Definition IsDuplicate (text : string) (existing : list string) : Prop :=
  exists e, In e existing /\ normalize e = normalize (Str.trim text).

Definition tooShort := {| valid := false; reason := "Clue must be at least 8 characters." |}.
Definition tooLong := {| valid := false; reason := "Clue must be 180 characters or fewer." |}.
Definition linksNotAllowed := {| valid := false; reason := "Links are not allowed in clues." |}.
Definition containsAnswer := {| valid := false; reason := "Clue cannot contain the answer." |}.
Definition duplicateClue := {| valid := false; reason := "This clue already exists for today." |}.
Definition validClue := {| valid := true; reason := "ok" |}.

(** The verdict on a clue: the rules in their order, each one reached
    only when every earlier rule passed. *)
Inductive Verdict (text : string) (words existing : list string)
  : ValidationResult -> Prop :=
| VerdictTooShort :
    TooShort text ->
    Verdict text words existing tooShort
| VerdictTooLong :
    ~ TooShort text -> TooLong text ->
    Verdict text words existing tooLong
| VerdictLink :
    ~ TooShort text -> ~ TooLong text -> HasLink text ->
    Verdict text words existing linksNotAllowed
| VerdictAnswer :
    ~ TooShort text -> ~ TooLong text -> ~ HasLink text ->
    HasNonEmptyForbiddenWord text words ->
    Verdict text words existing containsAnswer
| VerdictDuplicate :
    ~ TooShort text -> ~ TooLong text -> ~ HasLink text ->
    ~ HasNonEmptyForbiddenWord text words ->
    IsDuplicate text existing ->
    Verdict text words existing duplicateClue
| VerdictValid :
    ~ TooShort text -> ~ TooLong text -> ~ HasLink text ->
    ~ HasNonEmptyForbiddenWord text words ->
    ~ IsDuplicate text existing ->
    Verdict text words existing validClue.

(** the ranking order: higher combined score first, and among equal
    scores the later creation time first *)
Definition rankScore (c : CommunityClue) : Z := clue_upvotes c + clue_modBoost c * 3.

Definition RanksBefore (a b : CommunityClue) : Prop :=
  rankScore b < rankScore a
  \/ (rankScore a = rankScore b /\ clueTime b <= clueTime a).

(** the clue passes the validator called as the ranker calls it *)
Definition revalidates (c : CommunityClue) : bool :=
  valid (validateCommunityClue (clue_text c) noOptions).

(** the two rules that need no options: length and links *)
Definition lengthAndLinkOk (text : string) : Prop :=
  8 <= Str.len (Str.trim text) <= 180 /\ ~ HasLink text.

(** both clues have the same rank: same combined score and same time *)
Definition sameRank (a b : CommunityClue) : bool :=
  (rankScore a =? rankScore b) && (clueTime a =? clueTime b).

End Spec.

(** the first number the generator seeded with [seed] returns, as the
    rational [u / 2^32] *)
Definition firstDrawNumerator (seed : Z) : Z :=
  snd (mulberry32_next (mulberry32_init seed)).

Definition firstDraw (seed : Z) : Q := Qmake (firstDrawNumerator seed) 4294967296.

(** ** Sample data for the worked instances *)

Module Sample.

Definition wholesome : Puzzle :=
  {| puzzle_id := "p001"; puzzle_answer := "wholesome";
     puzzle_category := "community-vibe"; puzzle_title := "Faith in Humans";
     puzzle_hints := ["This post type usually gets people saying, 'I needed this today.'"];
     puzzle_subredditTags := ["r/HumansBeingBros"; "r/wholesomememes"] |}.

Definition nostalgia : Puzzle :=
  {| puzzle_id := "p002"; puzzle_answer := "nostalgia";
     puzzle_category := "memory"; puzzle_title := "Back in the Day";
     puzzle_hints := ["This feeling spikes when people post old gadgets."];
     puzzle_subredditTags := ["r/nostalgia"; "r/OldSchoolCool"] |}.

Definition chaos : Puzzle :=
  {| puzzle_id := "p003"; puzzle_answer := "chaos";
     puzzle_category := "thread-energy"; puzzle_title := "Comment Spiral";
     puzzle_hints := ["Every reply makes the thread harder to follow."];
     puzzle_subredditTags := [] |}.

Definition bank : list Puzzle := [wholesome; nostalgia; chaos].

(** 2026-02-04T00:00:00Z and 2026-02-04T23:59:59Z *)
Definition morning : JsDate.t := JsDate.Valid 1770163200000.
Definition evening : JsDate.t := JsDate.Valid 1770249599000.

Definition clue (id text : string) (upvotes modBoost : Z) (createdAt : CreatedAt)
  : CommunityClue :=
  {| clue_id := id; clue_text := text; clue_author := "u/someone";
     clue_upvotes := upvotes; clue_modBoost := modBoost;
     clue_createdAt := createdAt; clue_approved := true |}.

(** five upvotes against two upvotes and two moderator boosts; then two
    clues of equal score, the second created later; then one too short *)
Definition popular := clue "c1" "Strangers being kind" 5 0 (DateAt 1770163300000).
Definition boosted := clue "c2" "You needed this today" 2 2 (DateAt 1770163200000).
Definition earlier := clue "c3" "Faith restored again" 3 0 (DateAt 1770163400000).
Definition later := clue "c4" "Warm and fuzzy feeling" 3 0 (DateAt 1770163500000).
Definition stub := clue "c5" "short" 9 9 (DateAt 1770163600000).

Definition clues : list CommunityClue := [popular; earlier; stub; boosted; later].

(** a clue that spells the answer of [wholesome], and two clues with the
    same text *)
Definition spoiler := clue "c6" "It is so WHOLE-some, really" 1 0 (DateAt 1770163700000).
Definition original := clue "c7" "Kind strangers!" 1 0 (DateAt 1770163800000).
Definition repeated := clue "c8" "kind, STRANGERS" 1 0 (DateAt 1770163900000).

(** a session on 2026-02-04 with the puzzle [wholesome]: as started, after
    the wrong guess "Chaos" 30 seconds in, and after the right guess at 45
    seconds *)
Definition streakBefore : Storage :=
  {| stored_streak := Some {| lastSolvedDay := Some "2026-02-03"; streakDays := 2 |};
     writable := true |}.

Definition streakAfter : Storage :=
  {| stored_streak := Some {| lastSolvedDay := Some "2026-02-04"; streakDays := 3 |};
     writable := true |}.

Definition gameWith (ps : PlayerDailyState) : DailyGameState :=
  {| game_dayKey := "2026-02-04"; game_puzzle := wholesome; playerState := ps;
     communityClues := []; game_timestamp := 1770163200000 |}.

Definition chaosGuess : Guess :=
  {| guess_text := "Chaos"; guess_timestamp := 1770163230000;
     guess_hintsUsed := 1; guess_correct := false |}.

Definition rightGuess : Guess :=
  {| guess_text := "Wholesome!"; guess_timestamp := 1770163245000;
     guess_hintsUsed := 1; guess_correct := true |}.

Definition freshGame : DailyGameState :=
  gameWith {| guesses := []; hintsUnlocked := 1; score := 0; completed := false;
              timeStarted := morning; timeCompleted := None; streak := 2 |}.

Definition missedGame : DailyGameState :=
  gameWith {| guesses := [chaosGuess]; hintsUnlocked := 1; score := 0;
              completed := false; timeStarted := morning; timeCompleted := None;
              streak := 2 |}.

Definition solvedGame : DailyGameState :=
  gameWith {| guesses := [chaosGuess; rightGuess]; hintsUnlocked := 1; score := 94;
              completed := true; timeStarted := morning;
              timeCompleted := Some 1770163245000; streak := 3 |}.

Definition freshStore : Store :=
  {| currentGame := Some freshGame; error := None; storage := streakBefore |}.

Definition missedStore : Store :=
  {| currentGame := Some missedGame;
     error := Some "Not correct yet. 5 guesses left.";
     storage := streakBefore |}.

Definition solvedStore : Store :=
  {| currentGame := Some solvedGame; error := None; storage := streakAfter |}.

End Sample.

(** ** The remaining functions of the engine *)

(** [getHintSet(puzzle, hintsUnlocked)] *)
Definition getHintSet (puzzle : Puzzle) (hintsUnlocked : Z) : list string :=
  let hintCount := Z.max 1 (Z.min 3 hintsUnlocked) in
  slice0 (puzzle_hints puzzle) hintCount.

Record Snapshot : Type := mkSnapshot {
  snap_dayKey : string;
  snap_puzzleId : string;
  snap_title : string;
  snap_category : string;
  snap_subredditTags : list string;
  snap_publicHint : option string
}.

(** [createDailyGameSnapshot(inputDate)] over the bank [bank]; reading a
    field of an undefined puzzle throws a [TypeError], reading [hints[0]]
    of a puzzle without hints gives [undefined]. *)
Definition createDailyGameSnapshot (inputDate : JsDate.t) (bank : list Puzzle)
  : result Snapshot :=
  match pickDailyPuzzle inputDate bank with
  | Throw message => Throw message
  | Ok daily =>
      match puzzle daily with
      | None => Throw "Cannot read properties of undefined (reading 'id')"
      | Some p =>
          Ok {| snap_dayKey := dayKey daily;
                snap_puzzleId := puzzle_id p;
                snap_title := puzzle_title p;
                snap_category := puzzle_category p;
                snap_subredditTags := puzzle_subredditTags p;
                snap_publicHint := nth_error (puzzle_hints p) 0 |}
      end
  end.

(** ** The remaining operations of the store *)

Definition withPlayerState (game : DailyGameState) (ps : PlayerDailyState)
  : DailyGameState :=
  {| game_dayKey := game_dayKey game;
     game_puzzle := game_puzzle game;
     playerState := ps;
     communityClues := communityClues game;
     game_timestamp := game_timestamp game |}.

Definition withCommunityClues (game : DailyGameState) (clues : list CommunityClue)
  : DailyGameState :=
  {| game_dayKey := game_dayKey game;
     game_puzzle := game_puzzle game;
     playerState := playerState game;
     communityClues := clues;
     game_timestamp := game_timestamp game |}.

(** [unlockHint()] *)
Definition unlockHint (st : Store) : Store :=
  match currentGame st with
  | None => st
  | Some game =>
      let ps := playerState game in
      if completed ps then st
      else
        let nextHints := Z.min 3 (hintsUnlocked ps + 1) in
        if nextHints =? hintsUnlocked ps then st
        else
          setCurrentGame
            (withPlayerState game
               {| guesses := guesses ps;
                  hintsUnlocked := nextHints;
                  score := score ps;
                  completed := completed ps;
                  timeStarted := timeStarted ps;
                  timeCompleted := timeCompleted ps;
                  streak := streak ps |})
            st
  end.

(** [getStreak()]: [Number(parsed.streakDays || 0)], 0 when the entry is
    absent or unreadable *)
Definition getStreak (s : Storage) : Z :=
  match stored_streak s with
  | Some r => orZero (streakDays r)
  | None => 0
  end.

(** The clue entry of [localStorage]: absent, text that [JSON.parse]
    rejects, or an object from day keys to clue arrays (the first binding
    of a key is the one in force). *)
Inductive CluesEntry : Type :=
| CluesAbsent
| CluesCorrupt
| CluesObject (days : list (string * list CommunityClue)).

Fixpoint lookupDay (dayKey : string) (days : list (string * list CommunityClue))
  : option (list CommunityClue) :=
  match days with
  | [] => None
  | (k, clues) :: rest => if String.eqb k dayKey then Some clues else lookupDay dayKey rest
  end.

(** [parsed[dayKey] = clues]: the binding is replaced in place, a new key
    is added at the end *)
Fixpoint assignDay (dayKey : string) (clues : list CommunityClue)
         (days : list (string * list CommunityClue))
  : list (string * list CommunityClue) :=
  match days with
  | [] => [(dayKey, clues)]
  | (k, old) :: rest =>
      if String.eqb k dayKey then (k, clues) :: rest
      else (k, old) :: assignDay dayKey clues rest
  end.

(** A clue after [JSON.stringify] and [JSON.parse]: the [Date] has become
    its ISO string, every other field is kept. *)
Definition viaJson (c : CommunityClue) : CommunityClue :=
  {| clue_id := clue_id c; clue_text := clue_text c; clue_author := clue_author c;
     clue_upvotes := clue_upvotes c; clue_modBoost := clue_modBoost c;
     clue_createdAt := NotADate; clue_approved := clue_approved c |}.

(** [getStoredClues(dayKey)] *)
Definition getStoredClues (dayKey : string) (entry : CluesEntry) : list CommunityClue :=
  match entry with
  | CluesObject days =>
      match lookupDay dayKey days with
      | Some clues => clues
      | None => []
      end
  | CluesAbsent | CluesCorrupt => []
  end.

(** [saveStoredClues(dayKey, clues)]: the entry after the call; a parse
    error or a failing [setItem] is caught and leaves the entry as it was. *)
Definition saveStoredClues (dayKey : string) (clues : list CommunityClue)
           (canWrite : bool) (entry : CluesEntry) : CluesEntry :=
  match entry with
  | CluesCorrupt => entry
  | CluesAbsent =>
      if canWrite then CluesObject (assignDay dayKey (map viaJson clues) []) else entry
  | CluesObject days =>
      if canWrite then CluesObject (assignDay dayKey (map viaJson clues) days) else entry
  end.

(** The hook's state together with the clue entry of [localStorage]. *)
Record Session : Type := mkSession {
  store : Store;
  cluesEntry : CluesEntry
}.

Definition LOCAL_PLAYER : string := "local-player".

(** the player has a clue among the clues of the game:
    [communityClues.some((item) => item.author === "local-player")] *)
Definition hasLocalClue (game : DailyGameState) : bool :=
  existsb (fun item => String.eqb (clue_author item) LOCAL_PLAYER) (communityClues game).

(** the options [submitClue] passes to the validator *)
Definition clueOptionsOf (game : DailyGameState) : CommunityClueOptions :=
  {| forbiddenWords := Some [puzzle_answer (game_puzzle game)];
     existingClues := Some (map clue_text (communityClues game)) |}.

(** the clue [submitClue] builds at the instant [now], with [rand] the
    value of [Math.floor(Math.random() * 10000)] *)
Definition newLocalClue (now rand : Z) (clue : string) : CommunityClue :=
  {| clue_id := (Str.ofZ now ++ "-" ++ Str.ofZ rand)%string;
     clue_text := Str.trim clue;
     clue_author := LOCAL_PLAYER;
     clue_upvotes := 1;
     clue_modBoost := 0;
     clue_createdAt := DateAt now;
     clue_approved := true |}.

(** [submitClue(clue)]: the returned boolean and the session after the
    call. *)
Definition submitClue (now rand : Z) (clue : string) (s : Session) : bool * Session :=
  let st := store s in
  match currentGame st with
  | None => (false, s)
  | Some game =>
      if hasLocalClue game
      then (false,
            {| store := setError (Some "You already submitted a clue for today.") st;
               cluesEntry := cluesEntry s |})
      else
        let validation := validateCommunityClue clue (clueOptionsOf game) in
        if negb (valid validation) then
          (false,
           {| store := setError (Some (if String.eqb (reason validation) ""
                                       then "Invalid clue." else reason validation)) st;
              cluesEntry := cluesEntry s |})
        else
          let nextClue := newLocalClue now rand clue in
          let ranked := rankCommunityClues (communityClues game ++ [nextClue]) (Some 5) in
          let entry' :=
            saveStoredClues (game_dayKey game) ranked (writable (storage st))
                            (cluesEntry s) in
          (true,
           {| store := setError None (setCurrentGame (withCommunityClues game ranked) st);
              cluesEntry := entry' |})
  end.



(** ** The guess form of the board: [src/components/GameBoard.tsx]

    [handleGuessSubmit] trims the input, ignores an empty one, refuses a
    guess whose normal form repeats a prior guess, and hands the trimmed
    text to [submitGuess] otherwise: [Some] is the text handed on. *)
Definition stripNonAlnum (s : string) : string :=
  Str.filter isLowerAlnum (Str.toLowerCase s).

Definition boardForwards (input : string) (prior : list Guess) : option string :=
  let trimmed := Str.trim input in
  if String.eqb trimmed "" then None
  else
    let normalized := stripNonAlnum trimmed in
    let isDuplicate :=
      existsb (fun g => String.eqb (stripNonAlnum (guess_text g)) normalized) prior in
    if isDuplicate then None else Some trimmed.

(** ** Checks used in the proofs about day keys *)

(** [String(y)] is four digits that read back as [y] *)
Definition fourDigitYear (y : Z) : bool :=
  match Str.ofZ y with
  | String a (String b (String c (String d EmptyString))) =>
      match digitValue a, digitValue b, digitValue c, digitValue d with
      | Some a', Some b', Some c', Some d' => 1000 * a' + 100 * b' + 10 * c' + d' =? y
      | _, _, _, _ => false
      end
  | _ => false
  end.

(** [String(n).padStart(2, "0")] is two digits that read back as [n] *)
Definition twoDigitField (n : Z) : bool :=
  match Str.padStart2 (Str.ofZ n) with
  | String e (String f EmptyString) =>
      match digitValue e, digitValue f with
      | Some e', Some f' => 10 * e' + f' =? n
      | _, _ => false
      end
  | _ => false
  end.

(** the integers [lo, lo + 1, ..., hi] *)
Definition zrange (lo hi : Z) : list Z :=
  map (fun n => lo + Z.of_nat n) (seq 0 (Z.to_nat (hi - lo + 1))).

(** ** Well-formed player states

    What the store keeps true of the state of a day: at most six guesses
    with pairwise different normal forms, between one and three unlocked
    hints, only the last guess possibly correct, the day completed exactly
    when it is, and a score of 0 until then. *)
Definition lastCorrect (gs : list Guess) : bool :=
  match rev gs with
  | [] => false
  | g :: _ => guess_correct g
  end.

Definition PlayerOk (ps : PlayerDailyState) : Prop :=
  Z.of_nat (List.length (guesses ps)) <= MAX_GUESSES
  /\ NoDup (map (fun g => Spec.normalize (guess_text g)) (guesses ps))
  /\ 1 <= hintsUnlocked ps <= 3
  /\ Forall (fun g => guess_correct g = false) (removelast (guesses ps))
  /\ completed ps = lastCorrect (guesses ps)
  /\ (completed ps = false -> score ps = 0)
  /\ (completed ps = true -> 35 <= score ps <= 125).

Definition StoreOk (st : Store) : Prop :=
  match currentGame st with
  | None => True
  | Some game => PlayerOk (playerState game)
  end.

(** a clue that passes the validator again and outranks a fresh clue of
    the player, whose combined score is 1 *)
Definition outranksFresh (c : CommunityClue) : bool :=
  Spec.revalidates c && (2 <=? Spec.rankScore c).

(** ** More sample data *)

Module Demo.

Definition crowd : list CommunityClue :=
  [ Sample.clue "d1" "Strangers being kind" 4 0 NotADate;
    Sample.clue "d2" "You needed this today" 2 1 NotADate;
    Sample.clue "d3" "Faith restored again" 3 0 NotADate;
    Sample.clue "d4" "Warm and fuzzy feeling" 2 0 NotADate;
    Sample.clue "d5" "Good news for a change" 6 0 NotADate ].

(** the sample game with five clues of other players, and with none *)
Definition crowded : Session :=
  {| store := {| currentGame := Some (withCommunityClues Sample.freshGame crowd);
                 error := None; storage := Sample.streakBefore |};
     cluesEntry := CluesObject [("2026-02-04", crowd)] |}.

Definition quiet : Session :=
  {| store := Sample.freshStore; cluesEntry := CluesAbsent |}.

End Demo.

(** ** Proof automation *)

(** case analysis over the 256 code units *)
Ltac by_code_units c :=
  destruct c as [[] [] [] [] [] [] [] []]; vm_compute; try reflexivity; try discriminate.

(* ================================================================== *)
(** * Part II: the properties *)
(* ================================================================== *)

(** ** Facts about the 32-bit conversions *)

Lemma ToUint32_range (x : Z) : 0 <= Int32.ToUint32 x < 2 ^ 32.
Proof.
  unfold Int32.ToUint32, Int32.two32. change (2 ^ 32) with 4294967296.
  apply Z.mod_pos_bound. lia.
Qed.

Lemma ToUint32_small (x : Z) : 0 <= x < 2 ^ 32 -> Int32.ToUint32 x = x.
Proof.
  intros Hx. unfold Int32.ToUint32, Int32.two32.
  apply Z.mod_small. change (2 ^ 32) with 4294967296 in Hx. lia.
Qed.

Lemma ToUint32_ToInt32 (x : Z) : Int32.ToUint32 (Int32.ToInt32 x) = Int32.ToUint32 x.
Proof.
  unfold Int32.ToInt32.
  destruct (Int32.ToUint32 x <? Int32.two31).
  - unfold Int32.ToUint32. apply Z.mod_mod. unfold Int32.two32. lia.
  - unfold Int32.ToUint32 at 1.
    replace (Int32.ToUint32 x - Int32.two32)
      with (Int32.ToUint32 x + (-1) * Int32.two32) by ring.
    rewrite Z.mod_add by (unfold Int32.two32; lia).
    unfold Int32.ToUint32. apply Z.mod_mod. unfold Int32.two32. lia.
Qed.

Lemma lxor_mod_two32 (a b : Z) :
  Z.lxor a b mod 2 ^ 32 = Z.lxor (a mod 2 ^ 32) (b mod 2 ^ 32).
Proof.
  apply Z.bits_inj'. intros i Hi.
  rewrite Z.lxor_spec, !Z.testbit_mod_pow2, Z.lxor_spec by lia.
  destruct (i <? 32); simpl; reflexivity.
Qed.

Lemma ToUint32_xor (a b : Z) :
  Int32.ToUint32 (Int32.xor a b) = Z.lxor (Int32.ToUint32 a) (Int32.ToUint32 b).
Proof.
  unfold Int32.xor.
  rewrite <- (ToUint32_ToInt32 a), <- (ToUint32_ToInt32 b).
  unfold Int32.ToUint32, Int32.two32. change 4294967296 with (2 ^ 32).
  apply lxor_mod_two32.
Qed.

Lemma ToUint32_imul (a b : Z) :
  Int32.ToUint32 (Int32.imul a b)
  = (Int32.ToUint32 a * Int32.ToUint32 b) mod 2 ^ 32.
Proof.
  unfold Int32.imul. rewrite ToUint32_ToInt32.
  unfold Int32.ToUint32 at 1. unfold Int32.two32. change (2 ^ 32) with 4294967296.
  apply Z.mod_mod. lia.
Qed.

Lemma charCode_range (c : ascii) : 0 <= Str.charCode c < 256.
Proof.
  unfold Str.charCode. pose proof (N_ascii_bounded c). lia.
Qed.

(** ** The seed is the FNV-1a hash *)

Lemma daySeed_step (hash code : Z) :
  0 <= code < 2 ^ 32 ->
  Int32.ToUint32 (Int32.imul (Int32.xor hash code) 16777619)
  = Spec.fnvStep (Int32.ToUint32 hash) code.
Proof.
  intros Hc. rewrite ToUint32_imul, ToUint32_xor.
  rewrite (ToUint32_small code Hc).
  rewrite (ToUint32_small 16777619) by lia.
  reflexivity.
Qed.

Lemma daySeedLoop_fnv (codes : list Z) :
  Forall (fun code => 0 <= code < 2 ^ 32) codes ->
  forall hash,
    Int32.ToUint32 (daySeedLoop hash codes)
    = fold_left Spec.fnvStep codes (Int32.ToUint32 hash).
Proof.
  induction 1 as [| code rest Hcode _ IH]; intros hash; simpl.
  - reflexivity.
  - rewrite IH, daySeed_step by assumption. reflexivity.
Qed.

Lemma charCodes_range (s : string) :
  Forall (fun code => 0 <= code < 2 ^ 32) (Str.charCodes s).
Proof.
  induction s as [| c rest IH]; simpl; constructor; trivial.
  pose proof (charCode_range c). lia.
Qed.

(** C3. For every day-key string, [daySeed] is the 32-bit FNV-1a hash of
    its code units: start at 2166136261, per character exclusive-or with
    the character's code and multiply by 16777619 modulo 2^32; the result
    is an unsigned 32-bit integer. *)
Theorem daySeed_is_fnv1a32 (dayKey : string) :
  daySeed dayKey = Spec.fnv1a32 (Str.charCodes dayKey)
  /\ 0 <= daySeed dayKey < 2 ^ 32.
Proof.
  split.
  - unfold daySeed, Spec.fnv1a32.
    rewrite daySeedLoop_fnv by apply charCodes_range.
    rewrite ToUint32_small by (unfold Spec.fnvOffsetBasis; lia).
    reflexivity.
  - apply ToUint32_range.
Qed.

Example daySeed_2026_02_04 : daySeed "2026-02-04" = 3010730383.
Proof. vm_compute. reflexivity. Qed.

(** ** The score *)

(** C4. A correct solve with at least one hint scores exactly
    [max(5, 100 - max(0, hintsUsed - 1) * 15 - min(35, floor(max(0,
    timeSeconds) / 6)) + min(25, floor(max(0, streakDays) / 2)))]; an
    incorrect one scores exactly 0; so every score is 0 or lies in
    [5, 125]. *)
Theorem computeScore_formula (correct : bool) (hintsUsed timeSeconds streakDays : Z) :
  let result := computeScore {| sp_correct := correct; sp_hintsUsed := hintsUsed;
                                sp_timeSeconds := timeSeconds;
                                sp_streakDays := streakDays |} in
  (correct = true -> 1 <= hintsUsed ->
   result = Spec.scoreFormula hintsUsed timeSeconds streakDays)
  /\ (correct = false -> result = 0)
  /\ (result = 0 \/ 5 <= result <= 125).
Proof.
  unfold computeScore, Spec.scoreFormula.
  cbn [sp_correct sp_hintsUsed sp_timeSeconds sp_streakDays].
  destruct correct; cbn [negb].
  - split; [reflexivity |]. split; [discriminate |]. right.
    assert (Htime : 0 <= Z.max 0 timeSeconds / 6) by (apply Z.div_pos; lia).
    assert (Hstreak : 0 <= Z.max 0 streakDays / 2) by (apply Z.div_pos; lia).
    generalize dependent (Z.max 0 timeSeconds / 6).
    generalize dependent (Z.max 0 streakDays / 2).
    intros; lia.
  - split; [discriminate |]. split; [reflexivity |]. left. reflexivity.
Qed.

Lemma computeScore_formula_witness :
  computeScore {| sp_correct := true; sp_hintsUsed := 2;
                  sp_timeSeconds := 45; sp_streakDays := 3 |}
  = Spec.scoreFormula 2 45 3
  /\ Spec.scoreFormula 2 45 3 = 79.
Proof.
  split.
  - apply (proj1 (computeScore_formula true 2 45 3)); [reflexivity | lia].
  - reflexivity.
Defined.

(** C5 as stated fails: three hints and 1000 seconds do not score 5. *)
Lemma computeScore_3_1000_0_is_not_5 :
  computeScore {| sp_correct := true; sp_hintsUsed := 3;
                  sp_timeSeconds := 1000; sp_streakDays := 0 |} <> 5.
Proof. vm_compute. discriminate. Qed.

(** C5, amended. [computeScore] applied to correct = true, hintsUsed = 3,
    timeSeconds = 1000, streakDays = 0 returns exactly 35:
    100 - 30 - 35 + 0, above the floor of 5. *)
Theorem computeScore_3_1000_0 :
  computeScore {| sp_correct := true; sp_hintsUsed := 3;
                  sp_timeSeconds := 1000; sp_streakDays := 0 |} = 35.
Proof. reflexivity. Qed.

(** ** Rounding to 53 bits stays close to its argument *)

Lemma round53_bounds (m : Z) :
  0 <= m -> 0 <= round53 m /\ round53 m * 2 ^ 52 <= m * 2 ^ 52 + m.
Proof.
  intros Hm. unfold round53.
  destruct (Z.leb_spec (Z.log2 m - 52) 0) as [Hk | Hk].
  - lia.
  - set (k := Z.log2 m - 52) in *.
    assert (Hpos : 0 < m).
    { destruct (Z.eq_dec m 0) as [-> | ]; [simpl in k; lia | lia]. }
    assert (Hunit : 0 < 2 ^ k) by (apply Z.pow_pos_nonneg; lia).
    assert (Hlog : 2 ^ k * 2 ^ 52 <= m).
    { rewrite <- Z.pow_add_r by lia. replace (k + 52) with (Z.log2 m) by (unfold k; lia).
      apply Z.log2_spec. exact Hpos. }
    pose proof (Z.div_mod m (2 ^ k) ltac:(lia)) as Hdm.
    pose proof (Z.mod_pos_bound m (2 ^ k) Hunit) as Hr.
    assert (Hq : 0 <= m / 2 ^ k) by (apply Z.div_pos; lia).
    set (q := m / 2 ^ k) in *. set (r := m mod 2 ^ k) in *.
    set (unit := 2 ^ k) in *.
    assert (Hq' : q <= (if r <? unit / 2 then q
                        else if unit / 2 <? r then q + 1
                        else if Z.even q then q else q + 1) <= q + 1).
    { destruct (r <? unit / 2); [lia |].
      destruct (unit / 2 <? r); [lia |].
      destruct (Z.even q); lia. }
    set (q' := if r <? unit / 2 then q
               else if unit / 2 <? r then q + 1
               else if Z.even q then q else q + 1) in *.
    change (2 ^ 52) with 4503599627370496 in *.
    split; nia.
Qed.

Lemma floorDrawTimes_range (u n : Z) :
  0 <= u < 2 ^ 32 -> 1 <= n -> 0 <= floorDrawTimes u n < n.
Proof.
  intros Hu Hn. unfold floorDrawTimes, Int32.two32.
  change (2 ^ 32) with 4294967296 in Hu.
  assert (Hm : 0 <= u * n) by nia.
  destruct (round53_bounds (u * n) Hm) as [Hlo Hhi].
  change (2 ^ 52) with 4503599627370496 in Hhi.
  split.
  - apply Z.div_pos; lia.
  - apply Z.div_lt_upper_bound; [lia |]. nia.
Qed.

(** below 2^53 the product is exact *)
Lemma floorDrawTimes_exact (u n : Z) :
  0 <= u < 2 ^ 32 -> 1 <= n < 2 ^ 21 -> floorDrawTimes u n = u * n / 2 ^ 32.
Proof.
  intros Hu Hn. unfold floorDrawTimes, round53, Int32.two32.
  change (2 ^ 32) with 4294967296 in *. change (2 ^ 21) with 2097152 in *.
  destruct (Z.leb_spec (Z.log2 (u * n) - 52) 0) as [Hk | Hk]; [reflexivity |].
  exfalso.
  assert (Hpos : 0 < u * n).
  { destruct (Z.eq_dec (u * n) 0) as [E | ]; [rewrite E in Hk; simpl in Hk; lia | nia]. }
  assert (Hlt : Z.log2 (u * n) < 53).
  { apply Z.log2_lt_pow2; [exact Hpos |]. change (2 ^ 53) with 9007199254740992. nia. }
  lia.
Qed.

Lemma firstDrawNumerator_range (seed : Z) : 0 <= firstDrawNumerator seed < 2 ^ 32.
Proof.
  unfold firstDrawNumerator, mulberry32_next. cbn [snd]. apply ToUint32_range.
Qed.

(** ** Daily selection *)

Lemma firstDraw_range (seed : Z) : (0 <= firstDraw seed)%Q /\ (firstDraw seed < 1)%Q.
Proof.
  pose proof (firstDrawNumerator_range seed) as Hu.
  change (2 ^ 32) with 4294967296 in Hu.
  unfold firstDraw, Qle, Qlt; simpl. lia.
Qed.

(** the day key depends on the instant only through its UTC day number *)
(** the closed form of the year is the year ECMA-262 defines *)
Lemma YearFromDay_spec (days : Z) :
  JsDate.DayFromYear (JsDate.YearFromDay days) <= days
  /\ days < JsDate.DayFromYear (JsDate.YearFromDay days + 1).
Proof.
  unfold JsDate.YearFromDay, JsDate.DayFromYear.
  match goal with
  | |- context [?mp <? 10] => destruct (Z.ltb_spec mp 10)
  end; Z.div_mod_to_equations; lia.
Qed.

Lemma YearFromDay_unique (days y : Z) :
  JsDate.DayFromYear y <= days < JsDate.DayFromYear (y + 1) ->
  y = JsDate.YearFromDay days.
Proof.
  intros Hy. pose proof (YearFromDay_spec days) as Hspec.
  assert (Hmono : forall a b, a < b -> JsDate.DayFromYear (a + 1) <= JsDate.DayFromYear b).
  { intros a b Hab. unfold JsDate.DayFromYear. Z.div_mod_to_equations. lia. }
  destruct (Z.lt_trichotomy y (JsDate.YearFromDay days)) as [Hlt | [Heq | Hgt]].
  - specialize (Hmono _ _ Hlt). lia.
  - exact Heq.
  - specialize (Hmono _ _ Hgt). lia.
Qed.

Lemma toUtcDayKey_same_day (t1 t2 : Z) :
  JsDate.Day t1 = JsDate.Day t2 ->
  toUtcDayKey (JsDate.Valid t1) = toUtcDayKey (JsDate.Valid t2).
Proof.
  intros Hday. unfold toUtcDayKey, JsDate.getUTCFullYear, JsDate.getUTCMonth,
    JsDate.getUTCDate. rewrite Hday. reflexivity.
Qed.

Lemma pickDailyPuzzle_nonempty (d : JsDate.t) (bank : list Puzzle) :
  bank <> [] ->
  pickDailyPuzzle d bank
  = Ok {| dayKey := toUtcDayKey d;
          seed := daySeed (toUtcDayKey d);
          index := floorDrawTimes (firstDrawNumerator (daySeed (toUtcDayKey d)))
                                  (Z.of_nat (List.length bank));
          puzzle := nth_error bank
                      (Z.to_nat (floorDrawTimes
                                   (firstDrawNumerator (daySeed (toUtcDayKey d)))
                                   (Z.of_nat (List.length bank)))) |}.
Proof.
  intros Hne. unfold pickDailyPuzzle.
  destruct (Z.eqb_spec (Z.of_nat (List.length bank)) 0) as [E | _].
  - destruct bank; [contradiction | discriminate].
  - unfold firstDrawNumerator.
    destruct (mulberry32_next (mulberry32_init (daySeed (toUtcDayKey d)))) as [t u].
    reflexivity.
Qed.

(** C1. For a fixed non-empty bank, two instants with the same UTC day key
    give the same selection: [pickDailyPuzzle] succeeds on both with the
    same seed, the same index and the same puzzle. *)
Theorem pickDailyPuzzle_deterministic (bank : list Puzzle) (d1 d2 : JsDate.t) :
  bank <> [] ->
  toUtcDayKey d1 = toUtcDayKey d2 ->
  exists r1 r2,
    pickDailyPuzzle d1 bank = Ok r1
    /\ pickDailyPuzzle d2 bank = Ok r2
    /\ seed r1 = seed r2
    /\ index r1 = index r2
    /\ puzzle r1 = puzzle r2.
Proof.
  intros Hne Hkey.
  rewrite (pickDailyPuzzle_nonempty d1 bank Hne), (pickDailyPuzzle_nonempty d2 bank Hne).
  rewrite Hkey.
  eexists; eexists.
  split; [reflexivity |]. split; [reflexivity |]. cbn [seed index puzzle].
  split; [reflexivity |]. split; reflexivity.
Qed.

Lemma pickDailyPuzzle_deterministic_witness :
  exists r1 r2,
    pickDailyPuzzle Sample.morning Sample.bank = Ok r1
    /\ pickDailyPuzzle Sample.evening Sample.bank = Ok r2
    /\ seed r1 = seed r2
    /\ index r1 = index r2
    /\ puzzle r1 = puzzle r2.
Proof.
  apply (pickDailyPuzzle_deterministic Sample.bank Sample.morning Sample.evening).
  - discriminate.
  - vm_compute. reflexivity.
Defined.

(** C2. [pickDailyPuzzle] throws exactly when the bank is empty; on a
    non-empty bank it returns a selection whose first Mulberry32 draw lies
    in [0, 1), whose index lies in [0, bank.length) and whose puzzle is the
    element of the bank at that index. *)
Theorem pickDailyPuzzle_fails_iff_empty (d : JsDate.t) (bank : list Puzzle) :
  ((exists message, pickDailyPuzzle d bank = Throw message) <-> bank = [])
  /\ (bank <> [] ->
      exists r p,
        pickDailyPuzzle d bank = Ok r
        /\ (0 <= firstDraw (seed r))%Q /\ (firstDraw (seed r) < 1)%Q
        /\ 0 <= index r < Z.of_nat (List.length bank)
        /\ puzzle r = Some p
        /\ nth_error bank (Z.to_nat (index r)) = Some p
        /\ In p bank).
Proof.
  assert (Hok : bank <> [] ->
      exists r p,
        pickDailyPuzzle d bank = Ok r
        /\ (0 <= firstDraw (seed r))%Q /\ (firstDraw (seed r) < 1)%Q
        /\ 0 <= index r < Z.of_nat (List.length bank)
        /\ puzzle r = Some p
        /\ nth_error bank (Z.to_nat (index r)) = Some p
        /\ In p bank).
  { intros Hne. rewrite (pickDailyPuzzle_nonempty d bank Hne).
    set (s := daySeed (toUtcDayKey d)).
    set (n := Z.of_nat (List.length bank)).
    assert (Hn : 1 <= n).
    { unfold n. destruct bank; [contradiction | simpl; lia]. }
    pose proof (floorDrawTimes_range (firstDrawNumerator s) n
                  (firstDrawNumerator_range s) Hn) as Hidx.
    set (i := floorDrawTimes (firstDrawNumerator s) n) in *.
    destruct (nth_error bank (Z.to_nat i)) as [p |] eqn:Hnth.
    - eexists; exists p. cbn [seed index puzzle].
      destruct (firstDraw_range s) as [H0 H1].
      split; [reflexivity |]. split; [exact H0 |]. split; [exact H1 |].
      split; [exact Hidx |]. split; [reflexivity |]. split; [exact Hnth |].
      eapply nth_error_In; exact Hnth.
    - exfalso. apply nth_error_None in Hnth. unfold n in Hidx. lia. }
  split; [| exact Hok].
  split.
  - intros [message Hthrow].
    destruct bank as [| p rest]; [reflexivity |].
    destruct Hok as (r & q & Hr & _); [discriminate |].
    rewrite Hr in Hthrow. discriminate.
  - intros ->. eexists. reflexivity.
Qed.

Lemma pickDailyPuzzle_fails_iff_empty_witness :
  exists r p,
    pickDailyPuzzle Sample.morning Sample.bank = Ok r
    /\ (0 <= firstDraw (seed r))%Q /\ (firstDraw (seed r) < 1)%Q
    /\ 0 <= index r < Z.of_nat (List.length Sample.bank)
    /\ puzzle r = Some p
    /\ nth_error Sample.bank (Z.to_nat (index r)) = Some p
    /\ In p Sample.bank.
Proof.
  apply (proj2 (pickDailyPuzzle_fails_iff_empty Sample.morning Sample.bank)).
  discriminate.
Defined.

Example pickDailyPuzzle_2026_02_04 :
  pickDailyPuzzle Sample.morning Sample.bank
  = Ok {| dayKey := "2026-02-04"; seed := 3010730383; index := 0;
          puzzle := Some Sample.wholesome |}.
Proof. vm_compute. reflexivity. Qed.

Example toUtcDayKey_day_boundary :
  toUtcDayKey (JsDate.Valid 1770249599000) = "2026-02-04"
  /\ toUtcDayKey (JsDate.Valid 1770249601000) = "2026-02-05".
Proof. split; vm_compute; reflexivity. Qed.

(** ** Normalisation *)

Lemma lowerChar_alnum (c : ascii) :
  isLowerAlnum (Str.lowerChar c) = Spec.isAsciiAlnum (Str.lowerChar c).
Proof. by_code_units c. Qed.

Lemma lowerChar_ascii_non_alnum (c : ascii) :
  Spec.isAsciiNonAlnum c = true -> Spec.isAsciiAlnum (Str.lowerChar c) = false.
Proof. by_code_units c. Qed.

Lemma isLowerAlnum_not_white (c : ascii) :
  isLowerAlnum c = true -> Str.isWhiteSpace c = false.
Proof. by_code_units c. Qed.

Lemma filter_lower_alnum (s : string) :
  Str.filter isLowerAlnum (Str.toLowerCase s)
  = Str.filter Spec.isAsciiAlnum (Str.toLowerCase s).
Proof.
  induction s as [| c rest IH]; simpl; [reflexivity |].
  rewrite lowerChar_alnum, IH. reflexivity.
Qed.

Lemma filter_forallb (keep : ascii -> bool) (s : string) :
  Str.forallb keep (Str.filter keep s) = true.
Proof.
  induction s as [| c rest IH]; simpl; [reflexivity |].
  destruct (keep c) eqn:Hc; simpl; [rewrite Hc |]; exact IH.
Qed.

Lemma trimStart_no_white (s : string) :
  Str.forallb (fun c => negb (Str.isWhiteSpace c)) s = true -> Str.trimStart s = s.
Proof.
  destruct s as [| c rest]; simpl; [reflexivity |].
  intros H. apply andb_true_iff in H as [Hc _].
  apply negb_true_iff in Hc. rewrite Hc. reflexivity.
Qed.

Lemma trimEnd_no_white (s : string) :
  Str.forallb (fun c => negb (Str.isWhiteSpace c)) s = true -> Str.trimEnd s = s.
Proof.
  induction s as [| c rest IH]; simpl; [reflexivity |].
  intros H. apply andb_true_iff in H as [Hc Hrest].
  apply negb_true_iff in Hc. rewrite (IH Hrest), Hc.
  destruct rest; reflexivity.
Qed.

Lemma trim_no_white (s : string) :
  Str.forallb (fun c => negb (Str.isWhiteSpace c)) s = true -> Str.trim s = s.
Proof.
  intros H. unfold Str.trim. rewrite (trimStart_no_white s H). apply trimEnd_no_white, H.
Qed.

Lemma forallb_impl (p q : ascii -> bool) (s : string) :
  (forall c, p c = true -> q c = true) ->
  Str.forallb p s = true -> Str.forallb q s = true.
Proof.
  intros Hpq. induction s as [| c rest IH]; simpl; [reflexivity |].
  intros H. apply andb_true_iff in H as [Hc Hrest].
  rewrite (Hpq c Hc), (IH Hrest). reflexivity.
Qed.

(** the trim at the end of [normalizeText] has nothing left to remove *)
Lemma normalizeText_spec (s : string) : normalizeText s = Spec.normalize s.
Proof.
  unfold normalizeText, Spec.normalize.
  rewrite trim_no_white.
  - apply filter_lower_alnum.
  - apply forallb_impl with (p := isLowerAlnum).
    + intros c Hc. rewrite (isLowerAlnum_not_white c Hc). reflexivity.
    + apply filter_forallb.
Qed.

(** ASCII text without letters and digits has the empty normal form *)
Lemma normalize_ascii_non_alnum (s : string) :
  Str.forallb Spec.isAsciiNonAlnum s = true -> Spec.normalize s = "".
Proof.
  unfold Spec.normalize.
  induction s as [| c rest IH]; simpl; [reflexivity |].
  intros H. apply andb_true_iff in H as [Hc Hrest].
  rewrite (lowerChar_ascii_non_alnum c Hc). exact (IH Hrest).
Qed.

Lemma len_pos_iff (s : string) : (0 <? Str.len s) = true <-> s <> "".
Proof.
  unfold Str.len. destruct s; simpl.
  - split; [discriminate | congruence].
  - split; [discriminate | intros _; reflexivity].
Qed.

(** C6. [evaluateGuess] normalises guess and answer by lower-casing and
    dropping every character that is not an ASCII letter or digit, and
    reports [correct] exactly when the two normal forms are equal and the
    guess's is not empty; an empty guess, or one made of ASCII
    punctuation, symbols and white space only, is never correct. *)
Theorem evaluateGuess_spec (guess answer : string) :
  normalizedGuess (evaluateGuess guess answer) = Spec.normalize guess
  /\ normalizedAnswer (evaluateGuess guess answer) = Spec.normalize answer
  /\ (correct (evaluateGuess guess answer) = true
      <-> Spec.normalize guess = Spec.normalize answer /\ Spec.normalize guess <> "")
  /\ (Str.forallb Spec.isAsciiNonAlnum guess = true ->
      correct (evaluateGuess guess answer) = false).
Proof.
  unfold evaluateGuess; cbn [normalizedGuess normalizedAnswer correct].
  rewrite !normalizeText_spec.
  split; [reflexivity |]. split; [reflexivity |].
  assert (Hiff : (0 <? Str.len (Spec.normalize guess))
                 && (Spec.normalize guess =? Spec.normalize answer)%string = true
                 <-> Spec.normalize guess = Spec.normalize answer
                     /\ Spec.normalize guess <> "").
  { rewrite andb_true_iff, len_pos_iff, String.eqb_eq. tauto. }
  split; [exact Hiff |].
  intros Hnone. rewrite (normalize_ascii_non_alnum guess Hnone). reflexivity.
Qed.

Lemma evaluateGuess_spec_witness :
  correct (evaluateGuess " ?! -- " "karma") = false.
Proof.
  apply (proj2 (proj2 (proj2 (evaluateGuess_spec " ?! -- " "karma")))).
  reflexivity.
Defined.

Example evaluateGuess_vectors :
  correct (evaluateGuess "Karma!" "karma") = true
  /\ correct (evaluateGuess "  k a r m a  " "karma") = true
  /\ correct (evaluateGuess "" "karma") = false.
Proof. repeat split; reflexivity. Qed.

(** ** Substring search *)

Lemma prefix_iff (sub s : string) :
  String.prefix sub s = true <-> exists after, s = (sub ++ after)%string.
Proof.
  revert s. induction sub as [| c sub IH]; intros s; simpl.
  - split; [intros _; exists s; reflexivity | destruct s; reflexivity].
  - destruct s as [| d s]; [split; [discriminate | intros [after H]; discriminate] |].
    simpl. destruct (Ascii.ascii_dec c d) as [-> | Hcd].
    + rewrite IH. split; intros [after H]; exists after.
      * rewrite H. reflexivity.
      * injection H as H. exact H.
    + split; [discriminate |]. intros [after H]. injection H as Hd _. congruence.
Qed.

Lemma includes_nil (sub : string) :
  Str.includes "" sub = String.prefix sub "" || false.
Proof. reflexivity. Qed.

Lemma includes_cons (c : ascii) (rest sub : string) :
  Str.includes (String c rest) sub
  = String.prefix sub (String c rest) || Str.includes rest sub.
Proof. reflexivity. Qed.

Lemma includes_iff (s sub : string) :
  Str.includes s sub = true <-> Spec.Occurs sub s.
Proof.
  unfold Spec.Occurs. split.
  - induction s as [| c rest IH]; intros H.
    + rewrite includes_nil, orb_false_r in H. apply prefix_iff in H as [after H].
      exists "", after. exact H.
    + rewrite includes_cons in H. apply orb_true_iff in H as [H | H].
      * apply prefix_iff in H as [after H]. exists "", after. exact H.
      * destruct (IH H) as (before & after & E).
        exists (String c before), after. rewrite E. reflexivity.
  - intros (before & after & E). revert s E.
    induction before as [| c before IH]; intros s E; simpl in E.
    + assert (Hp : String.prefix sub s = true) by (apply prefix_iff; exists after; exact E).
      destruct s; [rewrite includes_nil | rewrite includes_cons]; rewrite Hp; reflexivity.
    + subst s. rewrite includes_cons, (IH _ eq_refl). apply orb_true_r.
Qed.

Lemma includes_empty (s : string) : Str.includes s "" = true.
Proof. destruct s; reflexivity. Qed.

(** ** The loops of the validator *)

Lemma anyBlockedTerm_iff (lower : string) (terms : list string) :
  anyBlockedTerm lower terms = true
  <-> exists term, In term terms /\ Spec.Occurs term lower.
Proof.
  induction terms as [| t rest IH]; simpl.
  - split; [discriminate | intros (term & [] & _)].
  - destruct (Str.includes lower t) eqn:Hinc.
    + split; [intros _ | reflexivity].
      exists t. split; [left; reflexivity | apply includes_iff, Hinc].
    + rewrite IH. split.
      * intros (term & Hin & Hocc). exists term. split; [right; exact Hin | exact Hocc].
      * intros (term & [<- | Hin] & Hocc).
        -- apply includes_iff in Hocc. congruence.
        -- exists term. split; assumption.
Qed.

Lemma anyForbidden_iff (normalizedRaw : string) (words : list string) :
  anyForbidden normalizedRaw words = true
  <-> exists w, In w words /\ Spec.normalize w <> ""
                /\ Spec.Occurs (Spec.normalize w) normalizedRaw.
Proof.
  induction words as [| w rest IH]; simpl.
  - split; [discriminate | intros (w & [] & _)].
  - rewrite normalizeText_spec.
    destruct (negb (Spec.normalize w =? "")%string
              && Str.includes normalizedRaw (Spec.normalize w)) eqn:Hhit.
    + split; [intros _ | reflexivity].
      apply andb_true_iff in Hhit as [Hne Hinc].
      apply negb_true_iff, String.eqb_neq in Hne.
      exists w. split; [left; reflexivity |]. split; [exact Hne | apply includes_iff, Hinc].
    + rewrite IH. split.
      * intros (v & Hin & Hne & Hocc). exists v. split; [right; exact Hin | split; assumption].
      * intros (v & [<- | Hin] & Hne & Hocc).
        -- apply includes_iff in Hocc. apply String.eqb_neq in Hne.
           rewrite Hne, Hocc in Hhit. discriminate.
        -- exists v. split; [exact Hin | split; assumption].
Qed.

Lemma duplicate_iff (normalizedRaw : string) (existing : list string) :
  existsb (fun item => (normalizeText item =? normalizedRaw)%string) existing = true
  <-> exists e, In e existing /\ Spec.normalize e = normalizedRaw.
Proof.
  rewrite existsb_exists. split; intros (e & Hin & He); exists e; split; trivial.
  - apply String.eqb_eq in He. rewrite <- normalizeText_spec. exact He.
  - apply String.eqb_eq. rewrite normalizeText_spec. exact He.
Qed.

(** ** The validator *)

(** C7, amended. [validateCommunityClue] applies its rules in a fixed
    order and the first failure wins: (1) trimmed length below 8 is too
    short; (2) trimmed length above 180 is too long; (3) a blocklisted
    link substring in the lower-cased text is a link; (4) the normal form
    of a forbidden word, when that normal form is not empty, occurring in
    the normalised text is the answer; (5) the normalised text equal to
    the normal form of an existing clue is a duplicate; otherwise the
    clue is valid. *)
Theorem validateCommunityClue_rule_order (text : string) (options : CommunityClueOptions) :
  Spec.Verdict text (orEmpty (forbiddenWords options)) (orEmpty (existingClues options))
    (validateCommunityClue text options).
Proof.
  unfold validateCommunityClue.
  destruct (Z.ltb_spec (Str.len (Str.trim text)) 8) as [Hshort | Hshort].
  { apply Spec.VerdictTooShort. exact Hshort. }
  assert (H1 : ~ Spec.TooShort text) by (unfold Spec.TooShort; lia).
  destruct (Z.ltb_spec 180 (Str.len (Str.trim text))) as [Hlong | Hlong].
  { apply Spec.VerdictTooLong; assumption. }
  assert (H2 : ~ Spec.TooLong text) by (unfold Spec.TooLong; lia).
  destruct (anyBlockedTerm (Str.toLowerCase (Str.trim text)) BLOCKED_TERMS) eqn:Hlink.
  { apply Spec.VerdictLink; trivial. apply anyBlockedTerm_iff, Hlink. }
  assert (H3 : ~ Spec.HasLink text).
  { intros H. apply anyBlockedTerm_iff in H. congruence. }
  rewrite normalizeText_spec.
  destruct (anyForbidden (Spec.normalize (Str.trim text))
              (orEmpty (forbiddenWords options))) eqn:Hword.
  { apply Spec.VerdictAnswer; trivial. apply anyForbidden_iff, Hword. }
  assert (H4 : ~ Spec.HasNonEmptyForbiddenWord text (orEmpty (forbiddenWords options))).
  { intros H. apply anyForbidden_iff in H. congruence. }
  destruct (existsb _ (orEmpty (existingClues options))) eqn:Hdup.
  { apply Spec.VerdictDuplicate; trivial. apply duplicate_iff, Hdup. }
  apply Spec.VerdictValid; trivial.
  intros H. apply duplicate_iff in H. congruence.
Qed.

(** the verdict relation leaves no choice: one result per input *)
Lemma Verdict_functional (text : string) (words existing : list string)
      (v1 v2 : ValidationResult) :
  Spec.Verdict text words existing v1 ->
  Spec.Verdict text words existing v2 ->
  v1 = v2.
Proof.
  intros V1 V2. destruct V1; destruct V2; try reflexivity; contradiction.
Qed.

(** C7 as stated fails on rule 4: the forbidden word ["!!!"] has the empty
    normal form, which occurs in every normalised text, yet the clue is
    accepted. *)
Lemma validateCommunityClue_empty_forbidden_word :
  ~ Spec.TooShort "good clue text"
  /\ ~ Spec.TooLong "good clue text"
  /\ ~ Spec.HasLink "good clue text"
  /\ Spec.HasForbiddenWord "good clue text" ["!!!"]
  /\ validateCommunityClue "good clue text"
       {| forbiddenWords := Some ["!!!"]; existingClues := None |}
     = Spec.validClue.
Proof.
  split; [vm_compute; discriminate |].
  split; [vm_compute; discriminate |].
  split.
  { intros H. apply anyBlockedTerm_iff in H. vm_compute in H. discriminate. }
  split.
  { exists "!!!". split; [left; reflexivity |].
    apply includes_iff. vm_compute. reflexivity. }
  vm_compute. reflexivity.
Qed.

Example validateCommunityClue_vectors :
  validateCommunityClue "1234567" noOptions = Spec.tooShort
  /\ validateCommunityClue "see https://x.y for the answer"
       {| forbiddenWords := Some ["answer"]; existingClues := None |}
     = Spec.linksNotAllowed
  /\ validateCommunityClue "It is so WHOLE-some, really"
       {| forbiddenWords := Some ["wholesome"]; existingClues := None |}
     = Spec.containsAnswer
  /\ validateCommunityClue "Kind strangers!"
       {| forbiddenWords := Some ["wholesome"];
          existingClues := Some ["kind, STRANGERS"] |}
     = Spec.duplicateClue.
Proof. repeat split; vm_compute; reflexivity. Qed.

(** ** The stable sort *)

Section SortFacts.
Context {A : Type} (compare : A -> A -> Z).

Let before (a b : A) : Prop := compare a b <= 0.

Hypothesis compare_total : forall a b, ~ before a b -> before b a.
Hypothesis compare_trans : forall a b c, before a b -> before b c -> before a c.

Lemma insertSorted_perm (x : A) (l : list A) :
  Permutation (insertSorted compare x l) (x :: l).
Proof.
  induction l as [| y rest IH]; simpl; [reflexivity |].
  destruct (compare x y <=? 0); [reflexivity |].
  rewrite IH. apply perm_swap.
Qed.

Lemma sortBy_perm (l : list A) : Permutation (sortBy compare l) l.
Proof.
  induction l as [| x rest IH]; simpl; [reflexivity |].
  rewrite insertSorted_perm, IH. reflexivity.
Qed.

Lemma insertSorted_sorted (x : A) (l : list A) :
  StronglySorted before l -> StronglySorted before (insertSorted compare x l).
Proof.
  induction 1 as [| y rest Hsorted IH Hall]; simpl.
  - constructor; constructor.
  - destruct (Z.leb_spec (compare x y) 0) as [Hxy | Hxy].
    + constructor; [constructor; assumption |].
      constructor; [exact Hxy |].
      eapply Forall_impl; [| exact Hall].
      intros z Hyz. eapply compare_trans; eassumption.
    + constructor; [exact IH |].
      eapply Permutation_Forall; [symmetry; apply insertSorted_perm |].
      constructor; [| exact Hall].
      apply compare_total. unfold before. lia.
Qed.

Lemma sortBy_sorted (l : list A) : StronglySorted before (sortBy compare l).
Proof.
  induction l as [| x rest IH]; simpl; [constructor |].
  apply insertSorted_sorted, IH.
Qed.

(** Stability: elements the comparator cannot tell apart keep their
    input order. [same] picks one class of such elements. *)
Variable same : A -> bool.
Hypothesis same_tie : forall a b, same a = true -> same b = true -> before a b.

Lemma insertSorted_filter (x : A) (l : list A) :
  filter same (insertSorted compare x l) = filter same (x :: l).
Proof.
  induction l as [| y rest IH]; [reflexivity |].
  cbn [insertSorted].
  destruct (Z.leb_spec (compare x y) 0) as [Hxy | Hxy]; [reflexivity |].
  cbn [filter] in *. rewrite IH.
  destruct (same x) eqn:Hx; [| reflexivity].
  destruct (same y) eqn:Hy; [| reflexivity].
  exfalso. pose proof (same_tie x y Hx Hy) as Hle. unfold before in Hle. lia.
Qed.

Lemma sortBy_stable (l : list A) :
  filter same (sortBy compare l) = filter same l.
Proof.
  induction l as [| x rest IH]; [reflexivity |].
  cbn [sortBy]. rewrite insertSorted_filter. cbn [filter]. rewrite IH. reflexivity.
Qed.

End SortFacts.

Lemma firstn_In {A : Type} (y : A) (n : nat) (l : list A) :
  In y (firstn n l) -> In y l.
Proof.
  revert n. induction l as [| x rest IH]; intros [| n]; simpl; try tauto.
  intros [-> | H]; [left; reflexivity | right; eapply IH; exact H].
Qed.

Lemma StronglySorted_weaken {A : Type} (R R' : A -> A -> Prop) (l : list A) :
  (forall a b, R a b -> R' a b) -> StronglySorted R l -> StronglySorted R' l.
Proof.
  intros Himp. induction 1 as [| x rest Hs IH Hall]; constructor; trivial.
  eapply Forall_impl; [| exact Hall]. intros b. apply Himp.
Qed.

Lemma StronglySorted_firstn {A : Type} (R : A -> A -> Prop) (n : nat) (l : list A) :
  StronglySorted R l -> StronglySorted R (firstn n l).
Proof.
  intros H. revert n. induction H as [| x rest Hs IH Hall]; intros [| n]; simpl;
    try constructor.
  - apply IH.
  - apply Forall_forall. intros y Hy. rewrite Forall_forall in Hall.
    apply Hall. eapply firstn_In; exact Hy.
Qed.

Lemma filter_all {A : Type} (l : list A) : filter (fun _ => true) l = l.
Proof. induction l as [| x rest IH]; simpl; [| rewrite IH]; reflexivity. Qed.

(** ** The ranking order *)

Lemma orZero_id (x : Z) : orZero x = x.
Proof. unfold orZero. destruct (Z.eqb_spec x 0); congruence. Qed.

Lemma clueScore_rankScore (c : CommunityClue) : clueScore c = Spec.rankScore c.
Proof. unfold clueScore, Spec.rankScore. rewrite !orZero_id. reflexivity. Qed.

Lemma compareClues_before (a b : CommunityClue) :
  compareClues a b <= 0 <-> Spec.RanksBefore a b.
Proof.
  unfold compareClues, Spec.RanksBefore. rewrite !clueScore_rankScore.
  destruct (Z.eqb_spec (Spec.rankScore a) (Spec.rankScore b)); simpl; lia.
Qed.

Lemma compareClues_total (a b : CommunityClue) :
  ~ compareClues a b <= 0 -> compareClues b a <= 0.
Proof. rewrite !compareClues_before. unfold Spec.RanksBefore. lia. Qed.

Lemma compareClues_trans (a b c : CommunityClue) :
  compareClues a b <= 0 -> compareClues b c <= 0 -> compareClues a c <= 0.
Proof. rewrite !compareClues_before. unfold Spec.RanksBefore. lia. Qed.

Lemma sameRank_tie (k a b : CommunityClue) :
  Spec.sameRank k a = true -> Spec.sameRank k b = true -> compareClues a b <= 0.
Proof.
  unfold Spec.sameRank. rewrite !andb_true_iff, !Z.eqb_eq, compareClues_before.
  unfold Spec.RanksBefore. lia.
Qed.

Lemma slice0_firstn {A : Type} (l : list A) (limit : Z) :
  0 <= limit -> slice0 l limit = firstn (Z.to_nat limit) l.
Proof.
  intros Hl. unfold slice0.
  destruct (Z.ltb_spec limit 0) as [? | _]; [lia |].
  destruct (Z.le_ge_cases limit (Z.of_nat (List.length l))) as [Hle | Hge].
  - rewrite Z.min_l by lia. reflexivity.
  - rewrite Z.min_r by lia. rewrite Nat2Z.id.
    rewrite firstn_all, firstn_all2 by lia. reflexivity.
Qed.

Lemma slice0_negative_length {A : Type} (l : list A) (limit : Z) :
  limit < 0 ->
  Z.of_nat (List.length (slice0 l limit)) = Z.max 0 (Z.of_nat (List.length l) + limit).
Proof.
  intros Hl. unfold slice0.
  destruct (Z.ltb_spec limit 0) as [_ | ?]; [| lia].
  rewrite length_firstn. lia.
Qed.

(** C8, amended. For every list of clues, [rankCommunityClues] returns a
    prefix of the clues that pass the validator again, ordered by
    descending [upvotes + modBoost * 3] and, among equal scores, by the
    later [createdAt] first; clues of equal score and time keep their
    input order, so the output is determined by the input. For a limit
    that is not negative (5 when omitted) the prefix is the first [limit]
    elements, at most [limit] of them; for a negative limit the last
    [-limit] elements are dropped instead. *)
Theorem rankCommunityClues_sorted_prefix (clues : list CommunityClue) (limit : option Z) :
  exists ranked,
    Permutation ranked (filter Spec.revalidates clues)
    /\ StronglySorted Spec.RanksBefore ranked
    /\ (forall k, filter (Spec.sameRank k) ranked
                  = filter (Spec.sameRank k) (filter Spec.revalidates clues))
    /\ (exists n, rankCommunityClues clues limit = firstn n ranked)
    /\ StronglySorted Spec.RanksBefore (rankCommunityClues clues limit)
    /\ (0 <= effectiveLimit limit ->
        rankCommunityClues clues limit = firstn (Z.to_nat (effectiveLimit limit)) ranked
        /\ Z.of_nat (List.length (rankCommunityClues clues limit)) <= effectiveLimit limit)
    /\ (effectiveLimit limit < 0 ->
        Z.of_nat (List.length (rankCommunityClues clues limit))
        = Z.max 0 (Z.of_nat (List.length ranked) + effectiveLimit limit)).
Proof.
  exists (sortBy compareClues (filter Spec.revalidates clues)).
  assert (Hsorted : StronglySorted Spec.RanksBefore
                      (sortBy compareClues (filter Spec.revalidates clues))).
  { apply StronglySorted_weaken with (R := fun a b => compareClues a b <= 0).
    - intros a b. apply compareClues_before.
    - apply sortBy_sorted; [apply compareClues_total | apply compareClues_trans]. }
  assert (Hrank : rankCommunityClues clues limit
                  = slice0 (sortBy compareClues (filter Spec.revalidates clues))
                           (effectiveLimit limit)).
  { unfold rankCommunityClues. rewrite filter_all. reflexivity. }
  split; [apply sortBy_perm |].
  split; [exact Hsorted |].
  split; [intros k; apply sortBy_stable; apply sameRank_tie |].
  split; [rewrite Hrank; unfold slice0; eexists; reflexivity |].
  split; [rewrite Hrank; unfold slice0; apply StronglySorted_firstn, Hsorted |].
  split.
  - intros Hlimit. rewrite Hrank, slice0_firstn by exact Hlimit.
    split; [reflexivity |].
    pose proof (firstn_le_length (Z.to_nat (effectiveLimit limit))
                  (sortBy compareClues (filter Spec.revalidates clues))).
    lia.
  - intros Hlimit. rewrite Hrank. apply slice0_negative_length, Hlimit.
Qed.

Lemma rankCommunityClues_sorted_prefix_witness :
  rankCommunityClues Sample.clues None
  = [Sample.boosted; Sample.popular; Sample.later; Sample.earlier]
  /\ Z.of_nat (List.length (rankCommunityClues Sample.clues None)) <= 5.
Proof.
  destruct (rankCommunityClues_sorted_prefix Sample.clues None)
    as (ranked & _ & _ & _ & _ & _ & Hprefix & _).
  destruct Hprefix as [_ Hlen]; [vm_compute; discriminate |].
  split; [vm_compute; reflexivity | exact Hlen].
Defined.

Example rankCommunityClues_vector :
  rankCommunityClues Sample.clues None
  = [Sample.boosted; Sample.popular; Sample.later; Sample.earlier]
  /\ rankCommunityClues Sample.clues (Some 2) = [Sample.boosted; Sample.popular].
Proof. split; vm_compute; reflexivity. Qed.

(** C8 as stated fails for a negative limit: [slice(0, -1)] drops only the
    last element, so three clues come back for the limit -1. *)
Lemma rankCommunityClues_negative_limit :
  rankCommunityClues Sample.clues (Some (-1))
  = [Sample.boosted; Sample.popular; Sample.later]
  /\ ~ Z.of_nat (List.length (rankCommunityClues Sample.clues (Some (-1)))) <= -1.
Proof. split; [vm_compute; reflexivity | vm_compute; intros H; apply H; reflexivity]. Qed.

(** ** What the ranker's filter enforces *)

Lemma validate_noOptions (text : string) :
  valid (validateCommunityClue text noOptions) = true <-> Spec.lengthAndLinkOk text.
Proof.
  unfold validateCommunityClue, Spec.lengthAndLinkOk, Spec.HasLink.
  cbn [noOptions forbiddenWords existingClues orEmpty anyForbidden existsb].
  destruct (Z.ltb_spec (Str.len (Str.trim text)) 8) as [Hshort | Hshort];
    [cbn [valid]; split; [discriminate | lia] |].
  destruct (Z.ltb_spec 180 (Str.len (Str.trim text))) as [Hlong | Hlong];
    [cbn [valid]; split; [discriminate | lia] |].
  destruct (anyBlockedTerm (Str.toLowerCase (Str.trim text)) BLOCKED_TERMS) eqn:Hlink;
    cbn [valid].
  - split; [discriminate |]. intros [_ Hno]. exfalso. apply Hno.
    apply anyBlockedTerm_iff, Hlink.
  - split; [intros _ | reflexivity]. split; [lia |].
    intros Hsome. apply anyBlockedTerm_iff in Hsome. congruence.
Qed.

Lemma slice0_In {A : Type} (x : A) (l : list A) (limit : Z) :
  In x (slice0 l limit) -> In x l.
Proof. unfold slice0. apply firstn_In. Qed.

(** C10. The ranker calls the validator without forbidden words and
    without existing clues, so its filter enforces the length and link
    rules only: every ranked clue satisfies those two rules, a clue whose
    text contains the day's answer is kept, and so is a duplicate. *)
Theorem rankCommunityClues_filter_is_length_and_links :
  (forall c, Spec.revalidates c = true <-> Spec.lengthAndLinkOk (clue_text c))
  /\ (forall clues limit c,
        In c (rankCommunityClues clues limit) ->
        In c clues /\ Spec.lengthAndLinkOk (clue_text c))
  /\ (validateCommunityClue (clue_text Sample.spoiler)
        {| forbiddenWords := Some [puzzle_answer Sample.wholesome];
           existingClues := None |} = Spec.containsAnswer
      /\ Spec.lengthAndLinkOk (clue_text Sample.spoiler)
      /\ In Sample.spoiler (rankCommunityClues [Sample.spoiler] None))
  /\ (validateCommunityClue (clue_text Sample.repeated)
        {| forbiddenWords := None;
           existingClues := Some [clue_text Sample.original] |} = Spec.duplicateClue
      /\ rankCommunityClues [Sample.original; Sample.repeated] None
         = [Sample.repeated; Sample.original]).
Proof.
  assert (Hfilter : forall c, Spec.revalidates c = true
                              <-> Spec.lengthAndLinkOk (clue_text c)).
  { intros c. apply validate_noOptions. }
  split; [exact Hfilter |].
  split.
  { intros clues limit c Hin. unfold rankCommunityClues in Hin.
    apply slice0_In in Hin.
    apply (Permutation_in c (sortBy_perm compareClues _)) in Hin.
    rewrite filter_all in Hin. apply filter_In in Hin as [Hin Hvalid].
    split; [exact Hin | apply Hfilter, Hvalid]. }
  split.
  { split; [vm_compute; reflexivity |].
    split; [apply Hfilter; vm_compute; reflexivity |].
    vm_compute. left. reflexivity. }
  split; vm_compute; reflexivity.
Qed.

Lemma rankCommunityClues_filter_is_length_and_links_witness :
  In Sample.spoiler [Sample.spoiler]
  /\ Spec.lengthAndLinkOk (clue_text Sample.spoiler).
Proof.
  apply (proj1 (proj2 rankCommunityClues_filter_is_length_and_links)
           [Sample.spoiler] None Sample.spoiler).
  vm_compute. left. reflexivity.
Defined.

(** ** Rejected guesses *)

Lemma normalizeInline_spec (s : string) : normalizeInline s = Spec.normalize s.
Proof. exact (normalizeText_spec s). Qed.

Lemma alreadyTried_iff (guess : string) (prior : list Guess) :
  existsb (fun item => (normalizeInline (guess_text item) =? normalizeInline guess)%string)
          prior = true
  <-> exists g, In g prior /\ Spec.normalize (guess_text g) = Spec.normalize guess.
Proof.
  rewrite existsb_exists.
  split; intros (g & Hin & Hg); exists g; split; trivial.
  - apply String.eqb_eq in Hg. rewrite !normalizeInline_spec in Hg. exact Hg.
  - apply String.eqb_eq. rewrite !normalizeInline_spec. exact Hg.
Qed.

(** The three refusals of [submitGuess]. When the day is already
    completed, or 6 guesses have been used, or the normalised guess equals
    the normalised text of a prior guess, it returns false and leaves the
    game (guesses, score, completed, streak, hintsUnlocked) and the stored
    streak unchanged. The two later refusals call [setError], with "No
    guesses remaining for today." and "You already tried that guess."; the
    first one, on a completed day, returns before any [setError] and leaves
    the message as it was. *)
Lemma submitGuess_rejected (now : Z) (guess : string) (st : Store) (game : DailyGameState) :
  currentGame st = Some game ->
  completed (playerState game) = true
  \/ MAX_GUESSES <= Z.of_nat (List.length (guesses (playerState game)))
  \/ (exists g, In g (guesses (playerState game))
                /\ Spec.normalize (guess_text g) = Spec.normalize guess) ->
  fst (submitGuess now guess st) = false
  /\ currentGame (snd (submitGuess now guess st)) = Some game
  /\ storage (snd (submitGuess now guess st)) = storage st
  /\ (completed (playerState game) = true ->
      error (snd (submitGuess now guess st)) = error st)
  /\ (completed (playerState game) = false ->
      MAX_GUESSES <= Z.of_nat (List.length (guesses (playerState game))) ->
      error (snd (submitGuess now guess st)) = Some "No guesses remaining for today.")
  /\ (completed (playerState game) = false ->
      Z.of_nat (List.length (guesses (playerState game))) < MAX_GUESSES ->
      error (snd (submitGuess now guess st)) = Some "You already tried that guess.").
Proof.
  intros Hgame Hreject. unfold submitGuess. rewrite Hgame.
  destruct (completed (playerState game)) eqn:Hdone.
  { cbn [fst snd]. repeat (split; [first [reflexivity | exact Hgame | discriminate] |]).
    discriminate. }
  destruct (Z.leb_spec MAX_GUESSES (Z.of_nat (List.length (guesses (playerState game)))))
    as [Hfull | Hroom].
  { cbn [fst snd setError currentGame storage error].
    split; [reflexivity |]. split; [exact Hgame |]. split; [reflexivity |].
    split; [discriminate |]. split; [reflexivity |]. intros _ Hlt. lia. }
  destruct Hreject as [Hc | [Hfull | Hdup]]; [discriminate | lia |].
  apply alreadyTried_iff in Hdup. rewrite Hdup.
  cbn [fst snd setError currentGame storage error].
  split; [reflexivity |]. split; [exact Hgame |]. split; [reflexivity |].
  split; [discriminate |]. split; [intros _ Hge; lia | reflexivity].
Qed.

Lemma submitGuess_rejected_witness :
  fst (submitGuess 1770163240000 "CHAOS!" Sample.missedStore) = false
  /\ currentGame (snd (submitGuess 1770163240000 "CHAOS!" Sample.missedStore))
     = Some Sample.missedGame
  /\ storage (snd (submitGuess 1770163240000 "CHAOS!" Sample.missedStore))
     = storage Sample.missedStore
  /\ (completed (playerState Sample.missedGame) = true ->
      error (snd (submitGuess 1770163240000 "CHAOS!" Sample.missedStore))
      = error Sample.missedStore)
  /\ (completed (playerState Sample.missedGame) = false ->
      MAX_GUESSES <= Z.of_nat (List.length (guesses (playerState Sample.missedGame))) ->
      error (snd (submitGuess 1770163240000 "CHAOS!" Sample.missedStore))
      = Some "No guesses remaining for today.")
  /\ (completed (playerState Sample.missedGame) = false ->
      Z.of_nat (List.length (guesses (playerState Sample.missedGame))) < MAX_GUESSES ->
      error (snd (submitGuess 1770163240000 "CHAOS!" Sample.missedStore))
      = Some "You already tried that guess.").
Proof.
  apply (submitGuess_rejected 1770163240000 "CHAOS!" Sample.missedStore Sample.missedGame).
  - reflexivity.
  - right. right. exists Sample.chaosGuess.
    split; [left; reflexivity | vm_compute; reflexivity].
Defined.

(** the sample session is one the store really goes through *)
Example submitGuess_session :
  submitGuess 1770163230000 "Chaos" Sample.freshStore = (false, Sample.missedStore)
  /\ submitGuess 1770163245000 "Wholesome!" Sample.missedStore = (true, Sample.solvedStore).
Proof. split; vm_compute; reflexivity. Qed.

(** C9. The code at the failing input: a guess on the completed sample
    day. The day is completed and shows no message; [submitGuess] returns
    false and leaves the state as it was, but reports nothing: the error is
    still absent after the call, where a refusal has to say why. The
    refusal of a repeated guess on the open sample day does report. *)
Theorem submitGuess_completed_reports_nothing :
  currentGame Sample.solvedStore = Some Sample.solvedGame
  /\ completed (playerState Sample.solvedGame) = true
  /\ error Sample.solvedStore = None
  /\ fst (submitGuess 1770163260000 "nostalgia" Sample.solvedStore) = false
  /\ snd (submitGuess 1770163260000 "nostalgia" Sample.solvedStore) = Sample.solvedStore
  /\ error (snd (submitGuess 1770163260000 "nostalgia" Sample.solvedStore)) = None
  /\ error (snd (submitGuess 1770163240000 "CHAOS!" Sample.missedStore))
     = Some "You already tried that guess.".
Proof. repeat split. Qed.

(* ================================================================== *)
(** * Part III: further properties of the engine and the store *)
(* ================================================================== *)

(** ** Hints *)

Lemma firstn_app_skipn_le {A : Type} (a b : nat) (l : list A) :
  (a <= b)%nat -> exists more, firstn b l = (firstn a l ++ more)%list.
Proof.
  revert a b. induction l as [| x rest IH]; intros a b Hab.
  - exists []. destruct a, b; reflexivity.
  - destruct a as [| a]; [exists (firstn b (x :: rest)); reflexivity |].
    destruct b as [| b]; [lia |].
    destruct (IH a b ltac:(lia)) as [more Hmore].
    exists more. simpl. rewrite Hmore. reflexivity.
Qed.

Lemma getHintSet_firstn (p : Puzzle) (h : Z) :
  getHintSet p h = firstn (Z.to_nat (Z.max 1 (Z.min 3 h))) (puzzle_hints p).
Proof. unfold getHintSet. apply slice0_firstn. lia. Qed.

(** X1. [getHintSet] returns the first hints of the puzzle, in order:
    never more than 3, and at least one whenever the puzzle has a hint,
    whatever number of unlocked hints it is given. *)
Theorem getHintSet_between_one_and_three (p : Puzzle) (h : Z) :
  (exists n, getHintSet p h = firstn n (puzzle_hints p))
  /\ (List.length (getHintSet p h) <= 3)%nat
  /\ (puzzle_hints p <> [] -> (1 <= List.length (getHintSet p h))%nat).
Proof.
  rewrite getHintSet_firstn.
  split; [eexists; reflexivity |].
  rewrite length_firstn. split; [lia |].
  intros Hne. destruct (puzzle_hints p); [contradiction | simpl; lia].
Qed.

Lemma getHintSet_between_one_and_three_witness :
  (1 <= List.length (getHintSet Sample.wholesome (-4)))%nat.
Proof.
  apply (proj2 (proj2 (getHintSet_between_one_and_three Sample.wholesome (-4)))).
  discriminate.
Defined.

(** X2. Unlocking more hints only adds hints: the hints shown for a
    smaller number of unlocked hints are the beginning of those shown for
    a larger number. *)
Theorem getHintSet_monotone (p : Puzzle) (h1 h2 : Z) :
  h1 <= h2 ->
  exists more, getHintSet p h2 = (getHintSet p h1 ++ more)%list.
Proof.
  intros Hle. rewrite !getHintSet_firstn.
  apply firstn_app_skipn_le. lia.
Qed.

Lemma getHintSet_monotone_witness :
  exists more, getHintSet Sample.wholesome 3 = (getHintSet Sample.wholesome 1 ++ more)%list.
Proof. apply (getHintSet_monotone Sample.wholesome 1 3). lia. Defined.

(** ** More on normalisation *)

Lemma lowerChar_fixes_lower_alnum (c : ascii) :
  isLowerAlnum c = true -> Str.lowerChar c = c.
Proof. by_code_units c. Qed.

Lemma toLowerCase_fixes_lower_alnum (s : string) :
  Str.forallb isLowerAlnum s = true -> Str.toLowerCase s = s.
Proof.
  induction s as [| c rest IH]; simpl; [reflexivity |].
  intros H. apply andb_true_iff in H as [Hc Hrest].
  rewrite (lowerChar_fixes_lower_alnum c Hc), (IH Hrest). reflexivity.
Qed.

Lemma filter_fixes_forallb (keep : ascii -> bool) (s : string) :
  Str.forallb keep s = true -> Str.filter keep s = s.
Proof.
  induction s as [| c rest IH]; simpl; [reflexivity |].
  intros H. apply andb_true_iff in H as [Hc Hrest].
  rewrite Hc, (IH Hrest). reflexivity.
Qed.

Lemma stripNonAlnum_spec (s : string) : stripNonAlnum s = Spec.normalize s.
Proof. unfold stripNonAlnum, Spec.normalize. apply filter_lower_alnum. Qed.

Lemma normalize_all_lower_alnum (s : string) :
  Str.forallb isLowerAlnum (Spec.normalize s) = true.
Proof. rewrite <- stripNonAlnum_spec. apply filter_forallb. Qed.

Lemma normalize_idempotent (s : string) :
  Spec.normalize (Spec.normalize s) = Spec.normalize s.
Proof.
  pose proof (normalize_all_lower_alnum s) as Hall.
  rewrite <- (stripNonAlnum_spec (Spec.normalize s)). unfold stripNonAlnum.
  rewrite (toLowerCase_fixes_lower_alnum _ Hall).
  apply filter_fixes_forallb, Hall.
Qed.

Lemma toLowerCase_app (a b : string) :
  Str.toLowerCase (a ++ b) = (Str.toLowerCase a ++ Str.toLowerCase b)%string.
Proof. induction a as [| c a IH]; simpl; [| rewrite IH]; reflexivity. Qed.

Lemma Str_filter_app (keep : ascii -> bool) (a b : string) :
  Str.filter keep (a ++ b) = (Str.filter keep a ++ Str.filter keep b)%string.
Proof.
  induction a as [| c a IH]; simpl; [reflexivity |].
  rewrite IH. destruct (keep c); reflexivity.
Qed.

Lemma normalize_app (a b : string) :
  Spec.normalize (a ++ b) = (Spec.normalize a ++ Spec.normalize b)%string.
Proof. unfold Spec.normalize. rewrite toLowerCase_app, Str_filter_app. reflexivity. Qed.

(** X3. [normalizeText] is idempotent, and it works character by
    character: the normal form of a concatenation is the concatenation of
    the normal forms, so ASCII punctuation, symbols and white space can be
    put before or after a text without changing its normal form. *)
Theorem normalizeText_idempotent_and_additive (a b : string) :
  normalizeText (normalizeText a) = normalizeText a
  /\ normalizeText (a ++ b) = (normalizeText a ++ normalizeText b)%string
  /\ (Str.forallb Spec.isAsciiNonAlnum b = true ->
      normalizeText (a ++ b) = normalizeText a
      /\ normalizeText (b ++ a) = normalizeText a).
Proof.
  rewrite !normalizeText_spec.
  split; [apply normalize_idempotent |].
  split; [apply normalize_app |].
  intros Hb. rewrite !normalize_app, (normalize_ascii_non_alnum b Hb).
  split; [| reflexivity].
  clear. induction (Spec.normalize a) as [| c s IH]; simpl; [| rewrite IH]; reflexivity.
Qed.

Lemma normalizeText_idempotent_and_additive_witness :
  normalizeText ("Karma" ++ " ...!") = normalizeText "Karma"
  /\ normalizeText (" ...!" ++ "Karma") = normalizeText "Karma".
Proof.
  apply (proj2 (proj2 (normalizeText_idempotent_and_additive "Karma" " ...!"))).
  reflexivity.
Defined.

(** X4. [evaluateGuess] is symmetric in guess and answer, and an answer
    is a correct guess of itself exactly when it has a letter or a digit. *)
Theorem evaluateGuess_symmetric (guess answer : string) :
  correct (evaluateGuess guess answer) = correct (evaluateGuess answer guess)
  /\ (correct (evaluateGuess answer answer) = true <-> normalizeText answer <> "").
Proof.
  unfold evaluateGuess; cbn [correct]. split.
  - destruct (String.eqb_spec (normalizeText guess) (normalizeText answer)) as [E | N].
    + rewrite E, String.eqb_refl. reflexivity.
    + rewrite !andb_false_r.
      destruct (String.eqb_spec (normalizeText answer) (normalizeText guess));
        [congruence | rewrite andb_false_r; reflexivity].
  - rewrite String.eqb_refl, andb_true_r. apply len_pos_iff.
Qed.

(** ** More on the score *)

Lemma computeScore_correct_value (h t s : Z) :
  computeScore {| sp_correct := true; sp_hintsUsed := h;
                  sp_timeSeconds := t; sp_streakDays := s |}
  = Z.max 5 (100 - Z.max 0 (h - 1) * 15 - Z.min 35 (Z.max 0 t / 6)
             + Z.min 25 (Z.max 0 s / 2)).
Proof. reflexivity. Qed.

(** X5. The score never rewards using more hints or taking longer, and
    never punishes a longer streak: it is antitone in [hintsUsed] and
    [timeSeconds] and monotone in [streakDays]. *)
Theorem computeScore_monotone (correct : bool) (h1 h2 t1 t2 s1 s2 : Z) :
  h1 <= h2 -> t1 <= t2 -> s2 <= s1 ->
  computeScore {| sp_correct := correct; sp_hintsUsed := h2;
                  sp_timeSeconds := t2; sp_streakDays := s2 |}
  <= computeScore {| sp_correct := correct; sp_hintsUsed := h1;
                     sp_timeSeconds := t1; sp_streakDays := s1 |}.
Proof.
  intros Hh Ht Hs. destruct correct; [| unfold computeScore; simpl; lia].
  rewrite !computeScore_correct_value.
  assert (Htime : Z.max 0 t1 / 6 <= Z.max 0 t2 / 6) by (apply Z.div_le_mono; lia).
  assert (Hstreak : Z.max 0 s2 / 2 <= Z.max 0 s1 / 2) by (apply Z.div_le_mono; lia).
  lia.
Qed.

Lemma computeScore_monotone_witness :
  computeScore {| sp_correct := true; sp_hintsUsed := 3;
                  sp_timeSeconds := 90; sp_streakDays := 0 |}
  <= computeScore {| sp_correct := true; sp_hintsUsed := 1;
                     sp_timeSeconds := 10; sp_streakDays := 4 |}.
Proof. apply (computeScore_monotone true 1 3 10 90 4 0); lia. Defined.

(** X6. A score is 0 exactly for an incorrect guess. With the one to
    three hints the store can pass, a correct guess scores between 35 and
    125 and the floor of 5 is never reached: the score is the unclamped
    sum. *)
Theorem computeScore_store_range (correct : bool) (h t s : Z) :
  (computeScore {| sp_correct := correct; sp_hintsUsed := h;
                   sp_timeSeconds := t; sp_streakDays := s |} = 0
   <-> correct = false)
  /\ (correct = true -> 1 <= h <= 3 ->
      computeScore {| sp_correct := correct; sp_hintsUsed := h;
                      sp_timeSeconds := t; sp_streakDays := s |}
      = 100 - (h - 1) * 15 - Z.min 35 (Z.max 0 t / 6) + Z.min 25 (Z.max 0 s / 2)
      /\ 35 <= computeScore {| sp_correct := correct; sp_hintsUsed := h;
                               sp_timeSeconds := t; sp_streakDays := s |} <= 125).
Proof.
  assert (Hstreak : 0 <= Z.max 0 s / 2) by (apply Z.div_pos; lia).
  assert (Htime : 0 <= Z.max 0 t / 6) by (apply Z.div_pos; lia).
  destruct correct.
  - rewrite computeScore_correct_value. split.
    + split; [lia | discriminate].
    + intros _ Hh. lia.
  - split; [split; reflexivity | discriminate].
Qed.

Lemma computeScore_store_range_witness :
  computeScore {| sp_correct := true; sp_hintsUsed := 3;
                  sp_timeSeconds := 1000; sp_streakDays := 0 |}
  = 100 - (3 - 1) * 15 - Z.min 35 (Z.max 0 1000 / 6) + Z.min 25 (Z.max 0 0 / 2)
  /\ 35 <= computeScore {| sp_correct := true; sp_hintsUsed := 3;
                           sp_timeSeconds := 1000; sp_streakDays := 0 |} <= 125.
Proof.
  apply (proj2 (computeScore_store_range true 3 1000 0)); [reflexivity | lia].
Defined.

(** ** More on the validator *)

Lemma trimStart_starts_clean (s : string) :
  match Str.trimStart s with
  | EmptyString => True
  | String c _ => Str.isWhiteSpace c = false
  end.
Proof.
  induction s as [| c rest IH]; simpl; [exact I |].
  destruct (Str.isWhiteSpace c) eqn:Hc; [exact IH | exact Hc].
Qed.

Lemma trimStart_of_clean (s : string) :
  match s with
  | EmptyString => True
  | String c _ => Str.isWhiteSpace c = false
  end ->
  Str.trimStart s = s.
Proof. destruct s as [| c rest]; simpl; [reflexivity |]. intros ->. reflexivity. Qed.

Lemma trimEnd_keeps_clean_start (s : string) :
  match s with
  | EmptyString => True
  | String c _ => Str.isWhiteSpace c = false
  end ->
  match Str.trimEnd s with
  | EmptyString => True
  | String c _ => Str.isWhiteSpace c = false
  end.
Proof.
  destruct s as [| c rest]; simpl; [trivial |].
  intros Hc. destruct (Str.trimEnd rest); [rewrite Hc |]; exact Hc.
Qed.

Lemma trimEnd_idempotent (s : string) : Str.trimEnd (Str.trimEnd s) = Str.trimEnd s.
Proof.
  induction s as [| c rest IH]; simpl; [reflexivity |].
  destruct (Str.trimEnd rest) as [| d kept] eqn:Hrest.
  - destruct (Str.isWhiteSpace c) eqn:Hc; simpl; [reflexivity | rewrite Hc; reflexivity].
  - cbn [Str.trimEnd]. cbn [Str.trimEnd] in IH.
    destruct (match Str.trimEnd kept with
              | EmptyString => if Str.isWhiteSpace d then EmptyString else String d EmptyString
              | String a s0 => String d (String a s0)
              end) eqn:Hinner; [discriminate | rewrite IH; reflexivity].
Qed.

Lemma trim_idempotent (s : string) : Str.trim (Str.trim s) = Str.trim s.
Proof.
  unfold Str.trim.
  rewrite (trimStart_of_clean (Str.trimEnd (Str.trimStart s))).
  - apply trimEnd_idempotent.
  - apply trimEnd_keeps_clean_start, trimStart_starts_clean.
Qed.

(** X7. The validator looks at the trimmed text only: white space around
    a clue changes neither the verdict nor the reason. *)
Theorem validateCommunityClue_ignores_outer_space (text : string)
        (options : CommunityClueOptions) :
  validateCommunityClue (Str.trim text) options = validateCommunityClue text options.
Proof. unfold validateCommunityClue. rewrite trim_idempotent. reflexivity. Qed.

(** a verdict is valid exactly when its reason is "ok", and no verdict has
    an empty reason *)
Lemma validateCommunityClue_reason (text : string) (options : CommunityClueOptions) :
  (valid (validateCommunityClue text options) = true
   <-> reason (validateCommunityClue text options) = "ok")
  /\ reason (validateCommunityClue text options) <> "".
Proof.
  unfold validateCommunityClue.
  repeat match goal with
         | |- context [if ?b then _ else _] => destruct b
         end; cbn [valid reason]; (split; [split |]); congruence.
Qed.

Lemma anyForbidden_incl (normalizedRaw : string) (fewer more : list string) :
  incl fewer more ->
  anyForbidden normalizedRaw fewer = true -> anyForbidden normalizedRaw more = true.
Proof.
  intros Hincl H. apply anyForbidden_iff in H as (w & Hin & Hrest).
  apply anyForbidden_iff. exists w. split; [apply Hincl, Hin | exact Hrest].
Qed.

Lemma duplicate_incl (normalizedRaw : string) (fewer more : list string) :
  incl fewer more ->
  existsb (fun item => (normalizeText item =? normalizedRaw)%string) fewer = true ->
  existsb (fun item => (normalizeText item =? normalizedRaw)%string) more = true.
Proof.
  intros Hincl H. apply existsb_exists in H as (e & Hin & He).
  apply existsb_exists. exists e. split; [apply Hincl, Hin | exact He].
Qed.

(** a clue valid against some options is valid against any fewer *)
Lemma validate_monotone (text : string) (o1 o2 : CommunityClueOptions) :
  incl (orEmpty (forbiddenWords o2)) (orEmpty (forbiddenWords o1)) ->
  incl (orEmpty (existingClues o2)) (orEmpty (existingClues o1)) ->
  valid (validateCommunityClue text o1) = true ->
  valid (validateCommunityClue text o2) = true.
Proof.
  intros Hw He. unfold validateCommunityClue.
  destruct (Str.len (Str.trim text) <? 8); [discriminate |].
  destruct (180 <? Str.len (Str.trim text)); [discriminate |].
  destruct (anyBlockedTerm _ BLOCKED_TERMS); [discriminate |].
  destruct (anyForbidden _ (orEmpty (forbiddenWords o1))) eqn:H1; [discriminate |].
  destruct (existsb _ (orEmpty (existingClues o1))) eqn:H2; [discriminate |].
  intros _.
  destruct (anyForbidden _ (orEmpty (forbiddenWords o2))) eqn:H3.
  { apply (anyForbidden_incl _ _ _ Hw) in H3. congruence. }
  destruct (existsb _ (orEmpty (existingClues o2))) eqn:H4.
  { apply (duplicate_incl _ _ _ He) in H4. congruence. }
  reflexivity.
Qed.

(** X8. Options only restrict: a clue that is valid against some forbidden
    words and existing clues is valid against any fewer of them, and in
    particular with no options at all, as the ranker calls the validator. *)
Theorem validateCommunityClue_options_only_restrict (text : string)
        (options fewer : CommunityClueOptions) :
  incl (orEmpty (forbiddenWords fewer)) (orEmpty (forbiddenWords options)) ->
  incl (orEmpty (existingClues fewer)) (orEmpty (existingClues options)) ->
  valid (validateCommunityClue text options) = true ->
  valid (validateCommunityClue text fewer) = true
  /\ valid (validateCommunityClue text noOptions) = true.
Proof.
  intros Hw He Hvalid. split.
  - apply (validate_monotone text options fewer Hw He Hvalid).
  - apply (validate_monotone text options noOptions); [| | exact Hvalid];
      intros x Hx; destruct Hx.
Qed.

Lemma validateCommunityClue_options_only_restrict_witness :
  valid (validateCommunityClue "Strangers being kind"
           {| forbiddenWords := Some ["wholesome"]; existingClues := None |}) = true
  /\ valid (validateCommunityClue "Strangers being kind" noOptions) = true.
Proof.
  apply (validateCommunityClue_options_only_restrict "Strangers being kind"
           {| forbiddenWords := Some ["wholesome"; "karma"];
              existingClues := Some ["Faith restored again"] |}
           {| forbiddenWords := Some ["wholesome"]; existingClues := None |}).
  - intros w [<- | []]. left. reflexivity.
  - intros w [].
  - vm_compute. reflexivity.
Defined.

(** ** More on the ranking *)

Lemma insertSorted_front {A : Type} (compare : A -> A -> Z) (x : A) (l : list A) :
  Forall (fun y => compare x y <= 0) l -> insertSorted compare x l = x :: l.
Proof.
  destruct 1 as [| y rest Hxy _]; simpl; [reflexivity |].
  destruct (Z.leb_spec (compare x y) 0); [reflexivity | lia].
Qed.

Lemma sortBy_of_sorted {A : Type} (compare : A -> A -> Z) (l : list A) :
  StronglySorted (fun a b => compare a b <= 0) l -> sortBy compare l = l.
Proof.
  induction 1 as [| x rest _ IH Hall]; simpl; [reflexivity |].
  rewrite IH. apply insertSorted_front, Hall.
Qed.

Lemma filter_fixes_Forall {A : Type} (keep : A -> bool) (l : list A) :
  Forall (fun x => keep x = true) l -> filter keep l = l.
Proof.
  induction 1 as [| x rest Hx _ IH]; simpl; [reflexivity |].
  rewrite Hx, IH. reflexivity.
Qed.

Lemma rankCommunityClues_unfold (clues : list CommunityClue) (limit : option Z) :
  0 <= effectiveLimit limit ->
  rankCommunityClues clues limit
  = firstn (Z.to_nat (effectiveLimit limit))
      (sortBy compareClues (filter Spec.revalidates clues)).
Proof.
  intros Hlimit. unfold rankCommunityClues. rewrite filter_all.
  apply slice0_firstn, Hlimit.
Qed.

Lemma sortBy_compareClues_sorted (l : list CommunityClue) :
  StronglySorted (fun a b => compareClues a b <= 0) (sortBy compareClues l).
Proof. apply sortBy_sorted; [apply compareClues_total | apply compareClues_trans]. Qed.

Lemma ranked_all_revalidate (clues : list CommunityClue) (n : nat) :
  Forall (fun c => Spec.revalidates c = true)
         (firstn n (sortBy compareClues (filter Spec.revalidates clues))).
Proof.
  apply Forall_forall. intros c Hin. apply firstn_In in Hin.
  apply (Permutation_in c (sortBy_perm compareClues _)) in Hin.
  apply filter_In in Hin. apply Hin.
Qed.

(** X9. Ranking is idempotent for a limit that is not negative: ranking
    an already ranked list with the same limit returns it unchanged, so
    the store can re-rank its stored clues without reordering or losing
    any. *)
Theorem rankCommunityClues_idempotent (clues : list CommunityClue) (limit : option Z) :
  0 <= effectiveLimit limit ->
  rankCommunityClues (rankCommunityClues clues limit) limit
  = rankCommunityClues clues limit.
Proof.
  intros Hlimit.
  rewrite (rankCommunityClues_unfold _ limit Hlimit).
  rewrite (rankCommunityClues_unfold clues limit Hlimit).
  set (n := Z.to_nat (effectiveLimit limit)).
  rewrite (filter_fixes_Forall _ _ (ranked_all_revalidate clues n)).
  rewrite sortBy_of_sorted
    by (apply StronglySorted_firstn, sortBy_compareClues_sorted).
  apply firstn_all2. rewrite length_firstn. lia.
Qed.

Lemma rankCommunityClues_idempotent_witness :
  rankCommunityClues (rankCommunityClues Sample.clues (Some 3)) (Some 3)
  = rankCommunityClues Sample.clues (Some 3).
Proof. apply (rankCommunityClues_idempotent Sample.clues (Some 3)). simpl. lia. Defined.

(** X10. With a limit of at least 1 the best clue is never lost: if any
    clue passes the validator, the ranking is not empty and no clue that
    passes the validator has a higher combined score than its first
    element. *)
Theorem rankCommunityClues_head_is_best (clues : list CommunityClue) (limit : option Z)
        (c : CommunityClue) :
  1 <= effectiveLimit limit ->
  In c clues ->
  Spec.revalidates c = true ->
  exists top rest,
    rankCommunityClues clues limit = top :: rest
    /\ In top clues
    /\ Spec.rankScore c <= Spec.rankScore top.
Proof.
  intros Hlimit Hin Hvalid.
  rewrite rankCommunityClues_unfold by lia.
  pose proof (sortBy_perm compareClues (filter Spec.revalidates clues)) as Hperm.
  pose proof (sortBy_compareClues_sorted (filter Spec.revalidates clues)) as Hsorted.
  assert (Hc : In c (sortBy compareClues (filter Spec.revalidates clues))).
  { apply (Permutation_in c (Permutation_sym Hperm)).
    apply filter_In. split; assumption. }
  destruct (sortBy compareClues (filter Spec.revalidates clues)) as [| top sorted];
    [contradiction |].
  destruct (Z.to_nat (effectiveLimit limit)) as [| n] eqn:Hn; [lia |].
  exists top, (firstn n sorted). split; [reflexivity |]. split.
  - assert (Htop : In top (filter Spec.revalidates clues)).
    { apply (Permutation_in top Hperm). left. reflexivity. }
    apply filter_In in Htop. apply Htop.
  - apply StronglySorted_inv in Hsorted as [_ Hall].
    destruct Hc as [<- | Hc]; [lia |].
    rewrite Forall_forall in Hall. specialize (Hall c Hc).
    apply compareClues_before in Hall. unfold Spec.RanksBefore in Hall. lia.
Qed.

Lemma rankCommunityClues_head_is_best_witness :
  exists top rest,
    rankCommunityClues Sample.clues (Some 1) = top :: rest
    /\ In top Sample.clues
    /\ Spec.rankScore Sample.popular <= Spec.rankScore top.
Proof.
  apply (rankCommunityClues_head_is_best Sample.clues (Some 1) Sample.popular).
  - simpl. lia.
  - left. reflexivity.
  - vm_compute. reflexivity.
Defined.

(** ** The calendar *)

Lemma DaysInYear_step (y : Z) :
  JsDate.DayFromYear (y + 1) - JsDate.DayFromYear y = JsDate.DaysInYear y.
Proof.
  unfold JsDate.DayFromYear, JsDate.DaysInYear.
  destruct (Z.eqb_spec (y mod 4) 0); destruct (Z.eqb_spec (y mod 100) 0);
    destruct (Z.eqb_spec (y mod 400) 0); cbn [negb];
    Z.div_mod_to_equations; lia.
Qed.

Lemma InLeapYear_cases (y : Z) :
  (JsDate.InLeapYear y = 0 /\ JsDate.DaysInYear y = 365)
  \/ (JsDate.InLeapYear y = 1 /\ JsDate.DaysInYear y = 366).
Proof.
  unfold JsDate.InLeapYear, JsDate.DaysInYear.
  destruct (negb (y mod 4 =? 0)); [left; split; reflexivity |].
  destruct (negb (y mod 100 =? 0)); [right; split; reflexivity |].
  destruct (negb (y mod 400 =? 0)); [left | right]; split; reflexivity.
Qed.

Lemma DayWithinYear_range (days : Z) :
  0 <= JsDate.DayWithinYear days
  < 365 + JsDate.InLeapYear (JsDate.YearFromDay days).
Proof.
  unfold JsDate.DayWithinYear.
  pose proof (YearFromDay_spec days) as [Hlo Hhi].
  pose proof (DaysInYear_step (JsDate.YearFromDay days)) as Hstep.
  destruct (InLeapYear_cases (JsDate.YearFromDay days)) as [[-> Hd] | [-> Hd]]; lia.
Qed.

(** month (1..12) and day of month of a day number, each within the
    calendar's bounds *)
Lemma month_and_date_range (days : Z) :
  0 <= JsDate.MonthFromDay days <= 11
  /\ 1 <= JsDate.DateFromDay days
          <= daysInMonth (JsDate.YearFromDay days) (JsDate.MonthFromDay days + 1).
Proof.
  pose proof (DayWithinYear_range days) as Hdwy.
  unfold JsDate.DateFromDay, JsDate.MonthFromDay, daysInMonth.
  set (dwy := JsDate.DayWithinYear days) in *.
  destruct (InLeapYear_cases (JsDate.YearFromDay days)) as [[Hleap _] | [Hleap _]];
    rewrite Hleap in *;
    repeat match goal with
           | |- context [?a <? ?b] => destruct (Z.ltb_spec a b)
           end; cbn; lia.
Qed.

Lemma MakeDay_inverse (days : Z) :
  JsDate.MakeDay (JsDate.YearFromDay days) (JsDate.MonthFromDay days)
                 (JsDate.DateFromDay days) = days.
Proof. unfold JsDate.MakeDay, JsDate.DateFromDay, JsDate.DayWithinYear. lia. Qed.

(** ** Day keys read back *)

Lemma zrange_check (P : Z -> bool) (lo hi : Z) :
  forallb P (zrange lo hi) = true ->
  forall m, lo <= m <= hi -> P m = true.
Proof.
  intros Hall m Hm. rewrite forallb_forall in Hall. apply Hall.
  unfold zrange. apply in_map_iff. exists (Z.to_nat (m - lo)).
  split; [lia | apply in_seq; lia].
Qed.

Lemma fourDigitYear_ok (y : Z) : 1000 <= y <= 9999 -> fourDigitYear y = true.
Proof.
  intros Hy. apply (zrange_check fourDigitYear 1000 9999); [vm_compute; reflexivity | lia].
Qed.

Lemma twoDigitField_ok (n : Z) : 0 <= n <= 99 -> twoDigitField n = true.
Proof.
  intros Hn. apply (zrange_check twoDigitField 0 99); [vm_compute; reflexivity | lia].
Qed.

(** the three fields of the day key of a valid date *)
Lemma toUtcDayKey_fields (tv : Z) :
  toUtcDayKey (JsDate.Valid tv)
  = (Str.ofZ (JsDate.YearFromDay (JsDate.Day tv)) ++ "-"
     ++ Str.padStart2 (Str.ofZ (JsDate.MonthFromDay (JsDate.Day tv) + 1)) ++ "-"
     ++ Str.padStart2 (Str.ofZ (JsDate.DateFromDay (JsDate.Day tv))))%string.
Proof. reflexivity. Qed.

Lemma parseDayKey_of_fields (y m d : Z) :
  1000 <= y <= 9999 -> 1 <= m <= 12 -> 1 <= d <= daysInMonth y m ->
  parseDayKey (Str.ofZ y ++ "-" ++ Str.padStart2 (Str.ofZ m) ++ "-"
               ++ Str.padStart2 (Str.ofZ d))
  = JsDate.Valid (JsDate.MakeDay y (m - 1) d * JsDate.msPerDay).
Proof.
  intros Hy Hm Hd.
  assert (Hd31 : d <= 31).
  { unfold daysInMonth in Hd. destruct (InLeapYear_cases y) as [[E _] | [E _]];
      rewrite E in Hd; repeat match type of Hd with
                               | context [if ?b then _ else _] => destruct b
                               end; lia. }
  pose proof (fourDigitYear_ok y Hy) as Hyear.
  pose proof (twoDigitField_ok m ltac:(lia)) as Hmonth.
  pose proof (twoDigitField_ok d ltac:(lia)) as Hday.
  unfold fourDigitYear in Hyear. unfold twoDigitField in Hmonth, Hday.
  destruct (Str.ofZ y) as [| a [| b [| c [| d4 [| ? ?]]]]]; try discriminate.
  destruct (Str.padStart2 (Str.ofZ m)) as [| e [| f [| ? ?]]]; try discriminate.
  destruct (Str.padStart2 (Str.ofZ d)) as [| g [| h [| ? ?]]]; try discriminate.
  destruct (digitValue a) as [a' |] eqn:Ea; [| discriminate].
  destruct (digitValue b) as [b' |] eqn:Eb; [| discriminate].
  destruct (digitValue c) as [c' |] eqn:Ec; [| discriminate].
  destruct (digitValue d4) as [d' |] eqn:Ed; [| discriminate].
  destruct (digitValue e) as [e' |] eqn:Ee; [| discriminate].
  destruct (digitValue f) as [f' |] eqn:Ef; [| discriminate].
  destruct (digitValue g) as [g' |] eqn:Eg; [| discriminate].
  destruct (digitValue h) as [h' |] eqn:Eh; [| discriminate].
  apply Z.eqb_eq in Hyear, Hmonth, Hday.
  cbn [String.append parseDayKey].
  rewrite Ea, Eb, Ec, Ed, Ee, Ef, Eg, Eh. cbv beta iota zeta.
  rewrite Hyear, Hmonth, Hday.
  change (Str.charCode "-" =? 45) with true. cbn [andb].
  destruct (Z.leb_spec 1 m); [| lia]. destruct (Z.leb_spec m 12); [| lia].
  destruct (Z.leb_spec 1 d); [| lia]. destruct (Z.leb_spec d (daysInMonth y m)); [| lia].
  reflexivity.
Qed.

(** a day key with a four-digit year reads back as the start of its day *)
Lemma parseDayKey_midnight (tv : Z) :
  1000 <= JsDate.YearFromDay (JsDate.Day tv) <= 9999 ->
  parseDayKey (toUtcDayKey (JsDate.Valid tv))
  = JsDate.Valid (JsDate.Day tv * JsDate.msPerDay).
Proof.
  intros Hyear. rewrite toUtcDayKey_fields.
  pose proof (month_and_date_range (JsDate.Day tv)) as [Hm Hd].
  rewrite parseDayKey_of_fields by (try assumption; lia).
  replace (JsDate.MonthFromDay (JsDate.Day tv) + 1 - 1)
    with (JsDate.MonthFromDay (JsDate.Day tv)) by lia.
  rewrite MakeDay_inverse. reflexivity.
Qed.

Lemma Day_add_days (tv k : Z) :
  JsDate.Day (tv + k * JsDate.msPerDay) = JsDate.Day tv + k.
Proof. unfold JsDate.Day, JsDate.msPerDay. apply Z.div_add. lia. Qed.

Lemma Day_of_midnight (days : Z) : JsDate.Day (days * JsDate.msPerDay) = days.
Proof. unfold JsDate.Day, JsDate.msPerDay. apply Z.div_mul. lia. Qed.

(** X11. Day keys read back and shift by whole calendar days. For an
    instant whose UTC year is between 1000 and 9999,
    [new Date(dayKey + "T00:00:00Z")] is midnight UTC of that instant's
    day, and [shiftUtcDay] of its day key by [k] days is the day key of
    the instant [k] days later (earlier for a negative [k]), across month,
    year and leap-day boundaries. *)
Theorem shiftUtcDay_toUtcDayKey (tv k : Z) :
  1000 <= JsDate.YearFromDay (JsDate.Day tv) <= 9999 ->
  parseDayKey (toUtcDayKey (JsDate.Valid tv))
  = JsDate.Valid (tv / 86400000 * 86400000)
  /\ shiftUtcDay (toUtcDayKey (JsDate.Valid tv)) k
     = toUtcDayKey (JsDate.Valid (tv + k * 86400000)).
Proof.
  intros Hyear. split; [apply (parseDayKey_midnight tv Hyear) |].
  unfold shiftUtcDay.
  rewrite (parseDayKey_midnight tv Hyear). cbn [addUTCDays].
  apply toUtcDayKey_same_day.
  change 86400000 with JsDate.msPerDay.
  rewrite !Day_add_days, Day_of_midnight. reflexivity.
Qed.

Lemma shiftUtcDay_toUtcDayKey_witness :
  parseDayKey (toUtcDayKey (JsDate.Valid 1709251200000))
  = JsDate.Valid (1709251200000 / 86400000 * 86400000)
  /\ shiftUtcDay (toUtcDayKey (JsDate.Valid 1709251200000)) (-1)
     = toUtcDayKey (JsDate.Valid (1709251200000 + (-1) * 86400000)).
Proof.
  apply (shiftUtcDay_toUtcDayKey 1709251200000 (-1)). vm_compute. split; discriminate.
Defined.

Example shiftUtcDay_leap_day :
  toUtcDayKey (JsDate.Valid 1709251200000) = "2024-03-01"
  /\ shiftUtcDay "2024-03-01" (-1) = "2024-02-29"
  /\ shiftUtcDay "2023-03-01" (-1) = "2023-02-28"
  /\ shiftUtcDay "2026-01-01" (-1) = "2025-12-31".
Proof. repeat split; vm_compute; reflexivity. Qed.

Lemma Day_eq_of_key_eq (t1 t2 : Z) :
  1000 <= JsDate.YearFromDay (JsDate.Day t1) <= 9999 ->
  1000 <= JsDate.YearFromDay (JsDate.Day t2) <= 9999 ->
  toUtcDayKey (JsDate.Valid t1) = toUtcDayKey (JsDate.Valid t2) ->
  JsDate.Day t1 = JsDate.Day t2.
Proof.
  intros H1 H2 Hkey.
  pose proof (parseDayKey_midnight t1 H1) as P1.
  pose proof (parseDayKey_midnight t2 H2) as P2.
  rewrite Hkey, P2 in P1. injection P1 as P1.
  unfold JsDate.msPerDay in P1. lia.
Qed.

(** X12. Within the years 1000 to 9999, two instants have the same day
    key exactly when they fall on the same UTC day: the key changes at
    every UTC midnight and nowhere else. *)
Theorem toUtcDayKey_same_key_iff_same_day (t1 t2 : Z) :
  1000 <= JsDate.YearFromDay (JsDate.Day t1) <= 9999 ->
  1000 <= JsDate.YearFromDay (JsDate.Day t2) <= 9999 ->
  (toUtcDayKey (JsDate.Valid t1) = toUtcDayKey (JsDate.Valid t2)
   <-> t1 / 86400000 = t2 / 86400000).
Proof.
  intros H1 H2. split.
  - apply (Day_eq_of_key_eq t1 t2 H1 H2).
  - apply toUtcDayKey_same_day.
Qed.

Lemma toUtcDayKey_same_key_iff_same_day_witness :
  toUtcDayKey (JsDate.Valid 1770249599999) = toUtcDayKey (JsDate.Valid 1770249600000)
  <-> 1770249599999 / 86400000 = 1770249600000 / 86400000.
Proof.
  apply (toUtcDayKey_same_key_iff_same_day 1770249599999 1770249600000);
    vm_compute; split; discriminate.
Defined.

(** ** The streak *)

Lemma optStringEqb_true (a : option string) (b : string) :
  optStringEqb a b = true <-> a = Some b.
Proof.
  destruct a as [s |]; simpl; [| split; discriminate].
  rewrite String.eqb_eq. split; congruence.
Qed.

Lemma optStringEqb_same (b : string) : optStringEqb (Some b) b = true.
Proof. apply optStringEqb_true. reflexivity. Qed.

(** X13. Solving the same day again changes nothing: a second
    [updateStreak] for the same day key returns the streak the first one
    returned and leaves the storage as the first one left it, whether or
    not the storage can be written. *)
Theorem updateStreak_same_day_idempotent (dayKey : string) (s : Storage) :
  updateStreak dayKey (snd (updateStreak dayKey s)) = updateStreak dayKey s.
Proof.
  unfold updateStreak at 2 3.
  destruct (optStringEqb (lastSolvedDay (getStreakState s)) dayKey) eqn:Hsame.
  - cbn [snd]. unfold updateStreak. rewrite Hsame. reflexivity.
  - cbn [snd]. destruct (writable s) eqn:Hw.
    + unfold updateStreak, getStreakState. cbn [stored_streak lastSolvedDay streakDays].
      rewrite optStringEqb_same. reflexivity.
    + unfold updateStreak. rewrite Hsame, Hw. reflexivity.
Qed.

Lemma updateStreak_after (dayKey next : string) (s : Storage) :
  writable s = true ->
  fst (updateStreak next (snd (updateStreak dayKey s)))
  = if String.eqb dayKey next then fst (updateStreak dayKey s)
    else if String.eqb dayKey (shiftUtcDay next (-1))
         then fst (updateStreak dayKey s) + 1
         else 1.
Proof.
  intros Hw.
  assert (Hstate : getStreakState (snd (updateStreak dayKey s))
                   = {| lastSolvedDay := Some dayKey;
                        streakDays := fst (updateStreak dayKey s) |}).
  { unfold updateStreak.
    destruct (optStringEqb (lastSolvedDay (getStreakState s)) dayKey) eqn:Hsame.
    - cbn [fst snd]. apply optStringEqb_true in Hsame.
      destruct (getStreakState s) as [l d]. cbn in *. congruence.
    - rewrite Hw. reflexivity. }
  unfold updateStreak at 1. rewrite Hstate. cbn [lastSolvedDay streakDays optStringEqb].
  destruct (String.eqb dayKey next); [reflexivity |].
  destruct (String.eqb dayKey (shiftUtcDay next (-1)));
    destruct (writable (snd (updateStreak dayKey s))); reflexivity.
Qed.

(** X14. The streak follows the calendar. After a solve at the instant
    [tv], with writable storage and years between 1000 and 9999, a solve
    [gap] whole days later returns the same streak when [gap] is 0, one
    more when [gap] is 1, and 1 for any other gap. *)
Theorem updateStreak_follows_calendar (tv gap : Z) (s : Storage) :
  writable s = true ->
  1000 <= JsDate.YearFromDay (JsDate.Day tv) <= 9999 ->
  1000 <= JsDate.YearFromDay (JsDate.Day (tv + gap * JsDate.msPerDay)) <= 9999 ->
  1000 <= JsDate.YearFromDay (JsDate.Day (tv + (gap - 1) * JsDate.msPerDay)) <= 9999 ->
  let first := updateStreak (toUtcDayKey (JsDate.Valid tv)) s in
  let second := updateStreak (toUtcDayKey (JsDate.Valid (tv + gap * JsDate.msPerDay)))
                             (snd first) in
  fst second = if gap =? 0 then fst first
               else if gap =? 1 then fst first + 1
               else 1.
Proof.
  intros Hw Hy0 Hy1 Hy2 first second. unfold second, first.
  rewrite (updateStreak_after _ _ s Hw).
  replace (shiftUtcDay (toUtcDayKey (JsDate.Valid (tv + gap * JsDate.msPerDay))) (-1))
    with (toUtcDayKey (JsDate.Valid (tv + (gap - 1) * JsDate.msPerDay))).
  2:{ unfold shiftUtcDay. rewrite (parseDayKey_midnight _ Hy1). cbn [addUTCDays].
      apply toUtcDayKey_same_day. rewrite !Day_add_days, Day_of_midnight. lia. }
  destruct (String.eqb_spec (toUtcDayKey (JsDate.Valid tv))
              (toUtcDayKey (JsDate.Valid (tv + gap * JsDate.msPerDay)))) as [E | N].
  - apply (Day_eq_of_key_eq _ _ Hy0 Hy1) in E. rewrite Day_add_days in E.
    destruct (Z.eqb_spec gap 0); [reflexivity | lia].
  - destruct (Z.eqb_spec gap 0) as [-> | Hg0].
    { exfalso. apply N. f_equal. f_equal. lia. }
    destruct (String.eqb_spec (toUtcDayKey (JsDate.Valid tv))
                (toUtcDayKey (JsDate.Valid (tv + (gap - 1) * JsDate.msPerDay)))) as [E | N'].
    + apply (Day_eq_of_key_eq _ _ Hy0 Hy2) in E. rewrite Day_add_days in E.
      destruct (Z.eqb_spec gap 1); [reflexivity | lia].
    + destruct (Z.eqb_spec gap 1) as [-> | Hg1]; [| reflexivity].
      exfalso. apply N'. f_equal. f_equal. lia.
Qed.

Lemma updateStreak_follows_calendar_witness :
  let first := updateStreak (toUtcDayKey (JsDate.Valid 1770249599000)) Sample.streakBefore in
  let second := updateStreak
                  (toUtcDayKey (JsDate.Valid (1770249599000 + 1 * JsDate.msPerDay)))
                  (snd first) in
  fst second = if 1 =? 0 then fst first else if 1 =? 1 then fst first + 1 else 1.
Proof.
  apply (updateStreak_follows_calendar 1770249599000 1 Sample.streakBefore).
  - reflexivity.
  - vm_compute. split; discriminate.
  - vm_compute. split; discriminate.
  - vm_compute. split; discriminate.
Defined.

(** ** The state of a day stays well-formed *)

Lemma lastCorrect_snoc (gs : list Guess) (g : Guess) :
  lastCorrect (gs ++ [g]) = guess_correct g.
Proof. unfold lastCorrect. rewrite rev_app_distr. reflexivity. Qed.

Lemma all_incorrect_of_open (gs : list Guess) :
  Forall (fun g => guess_correct g = false) (removelast gs) ->
  lastCorrect gs = false ->
  Forall (fun g => guess_correct g = false) gs.
Proof.
  destruct gs as [| g front _] using rev_ind; [constructor |].
  rewrite removelast_last, lastCorrect_snoc. intros Hfront Hg.
  apply Forall_app. split; [exact Hfront | constructor; [exact Hg | constructor]].
Qed.

Lemma NoDup_snoc {A : Type} (l : list A) (x : A) :
  NoDup l -> ~ In x l -> NoDup (l ++ [x]).
Proof.
  intros Hl Hx. apply NoDup_app; [exact Hl | constructor; [intros [] | constructor] |].
  intros y Hy [<- | []]. exact (Hx Hy).
Qed.

Lemma not_tried_not_in (guess : string) (prior : list Guess) :
  existsb (fun item => (normalizeInline (guess_text item) =? normalizeInline guess)%string)
          prior = false ->
  ~ In (Spec.normalize guess) (map (fun g => Spec.normalize (guess_text g)) prior).
Proof.
  intros Hnot Hin. apply in_map_iff in Hin as (g & Hg & Hin).
  assert (Htried : existsb (fun item => (normalizeInline (guess_text item)
                                         =? normalizeInline guess)%string) prior = true).
  { apply alreadyTried_iff. exists g. split; assumption. }
  congruence.
Qed.

(** the game after a call of [submitGuess] that was not refused *)
Lemma submitGuess_accepted (now : Z) (guess : string) (st : Store) (game : DailyGameState) :
  currentGame st = Some game ->
  completed (playerState game) = false ->
  Z.of_nat (List.length (guesses (playerState game))) < MAX_GUESSES ->
  existsb (fun item => (normalizeInline (guess_text item) =? normalizeInline guess)%string)
          (guesses (playerState game)) = false ->
  exists ps',
    currentGame (snd (submitGuess now guess st)) = Some (withPlayerState game ps')
    /\ fst (submitGuess now guess st)
       = correct (evaluateGuess guess (puzzle_answer (game_puzzle game)))
    /\ guesses ps'
       = (guesses (playerState game)
          ++ [{| guess_text := guess; guess_timestamp := now;
                 guess_hintsUsed := hintsUnlocked (playerState game);
                 guess_correct := fst (submitGuess now guess st) |}])%list
    /\ hintsUnlocked ps' = hintsUnlocked (playerState game)
    /\ completed ps' = fst (submitGuess now guess st)
    /\ score ps'
       = computeScore {| sp_correct := fst (submitGuess now guess st);
                         sp_hintsUsed := hintsUnlocked (playerState game);
                         sp_timeSeconds := elapsedSeconds now (timeStarted (playerState game));
                         sp_streakDays := streak (playerState game) |}
    /\ (fst (submitGuess now guess st) = false ->
        streak ps' = streak (playerState game)
        /\ storage (snd (submitGuess now guess st)) = storage st).
Proof.
  intros Hgame Hopen Hroom Hnew. unfold submitGuess. rewrite Hgame, Hopen.
  destruct (Z.leb_spec MAX_GUESSES (Z.of_nat (List.length (guesses (playerState game)))));
    [lia |].
  rewrite Hnew.
  destruct (correct (evaluateGuess guess (puzzle_answer (game_puzzle game)))) eqn:Hc.
  - destruct (updateStreak (game_dayKey game) (storage st)) as [nextStreak storage'].
    eexists. cbn [fst snd setError setCurrentGame setStorage currentGame].
    split; [reflexivity |]. cbn [guesses hintsUnlocked completed score streak].
    do 5 (split; [reflexivity |]). discriminate.
  - eexists.
    assert (Herr : forall a b (s : Store),
               currentGame (if MAX_GUESSES <=? Z.of_nat (List.length (guesses (playerState game))) + 1
                            then setError a s else setError b s) = currentGame s
               /\ storage (if MAX_GUESSES <=? Z.of_nat (List.length (guesses (playerState game))) + 1
                           then setError a s else setError b s) = storage s).
    { intros a b s. destruct (MAX_GUESSES <=? _); split; reflexivity. }
    cbn [fst snd]. rewrite (proj1 (Herr _ _ _)), (proj2 (Herr _ _ _)).
    cbn [setCurrentGame setStorage currentGame storage].
    split; [reflexivity |]. cbn [guesses hintsUnlocked completed score streak].
    do 5 (split; [reflexivity |]). intros _. split; reflexivity.
Qed.

Lemma withPlayerState_playerState (game : DailyGameState) (ps : PlayerDailyState) :
  playerState (withPlayerState game ps) = ps.
Proof. reflexivity. Qed.

(** the game after any call of [submitGuess]: the same, or one more guess *)
Lemma submitGuess_cases (now : Z) (guess : string) (st : Store) (game : DailyGameState) :
  currentGame st = Some game ->
  currentGame (snd (submitGuess now guess st)) = Some game
  \/ (completed (playerState game) = false
      /\ Z.of_nat (List.length (guesses (playerState game))) < MAX_GUESSES
      /\ existsb (fun item => (normalizeInline (guess_text item)
                               =? normalizeInline guess)%string)
                 (guesses (playerState game)) = false).
Proof.
  intros Hgame.
  destruct (completed (playerState game)) eqn:Hdone.
  { left. unfold submitGuess. rewrite Hgame, Hdone. exact Hgame. }
  destruct (Z.leb_spec MAX_GUESSES (Z.of_nat (List.length (guesses (playerState game)))))
    as [Hfull | Hroom].
  { left. unfold submitGuess. rewrite Hgame, Hdone.
    destruct (Z.leb_spec MAX_GUESSES (Z.of_nat (List.length (guesses (playerState game)))));
      [exact Hgame | lia]. }
  destruct (existsb _ (guesses (playerState game))) eqn:Htried.
  { left. unfold submitGuess. rewrite Hgame, Hdone.
    destruct (Z.leb_spec MAX_GUESSES (Z.of_nat (List.length (guesses (playerState game)))));
      [lia |].
    rewrite Htried. exact Hgame. }
  right. repeat split; assumption.
Qed.

(** X15. [submitGuess] keeps the state of the day well-formed: from a
    state with at most six guesses of pairwise different normal forms, one
    to three unlocked hints, only the last guess possibly correct, the day
    completed exactly when it is and the score 0 until then, every call
    leads to such a state again, with a score between 35 and 125 once the
    day is completed. *)
Theorem submitGuess_keeps_StoreOk (now : Z) (guess : string) (st : Store) :
  StoreOk st -> StoreOk (snd (submitGuess now guess st)).
Proof.
  unfold StoreOk. destruct (currentGame st) as [game |] eqn:Hgame.
  2:{ intros _. unfold submitGuess. rewrite Hgame. cbn [snd]. rewrite Hgame. exact I. }
  intros Hok.
  destruct (submitGuess_cases now guess st game Hgame) as [Hsame | (Hopen & Hroom & Hnew)].
  { rewrite Hsame. exact Hok. }
  destruct (submitGuess_accepted now guess st game Hgame Hopen Hroom Hnew)
    as (ps' & Hgame' & Hret & Hguesses & Hhints & Hdone & Hscore & _).
  rewrite Hgame', withPlayerState_playerState.
  destruct Hok as (Hlen & Hdistinct & Hh & Hfront & Hcompleted & Hzero & _).
  unfold PlayerOk. rewrite Hguesses, Hhints, Hdone, Hscore.
  rewrite length_app, map_app, removelast_last, lastCorrect_snoc.
  cbn [List.length map guess_text guess_correct].
  split; [lia |].
  split; [apply NoDup_snoc; [exact Hdistinct | apply not_tried_not_in, Hnew] |].
  split; [exact Hh |].
  split; [apply all_incorrect_of_open; [exact Hfront | congruence] |].
  split; [reflexivity |].
  split.
  - intros ->. reflexivity.
  - intros ->. rewrite computeScore_correct_value.
    assert (0 <= Z.max 0 (elapsedSeconds now (timeStarted (playerState game))) / 6)
      by (apply Z.div_pos; lia).
    assert (0 <= Z.max 0 (streak (playerState game)) / 2) by (apply Z.div_pos; lia).
    lia.
Qed.

Lemma submitGuess_keeps_StoreOk_witness :
  StoreOk (snd (submitGuess 1770163245000 "Wholesome!" Sample.missedStore)).
Proof.
  apply (submitGuess_keeps_StoreOk 1770163245000 "Wholesome!" Sample.missedStore).
  unfold StoreOk, PlayerOk. simpl.
  split; [unfold MAX_GUESSES; lia |].
  split; [constructor; [intros [] | constructor] |].
  split; [lia |]. split; [constructor |]. split; [reflexivity |].
  split; [reflexivity | discriminate].
Defined.

(** X16. [submitGuess] returns true exactly when this call completes the
    day: the day was open before and is completed after; and a call that
    returns false never changes the streak, in the game or in storage. *)
Theorem submitGuess_true_iff_completes (now : Z) (guess : string) (st : Store)
        (game : DailyGameState) :
  currentGame st = Some game ->
  exists game',
    currentGame (snd (submitGuess now guess st)) = Some game'
    /\ (fst (submitGuess now guess st) = true
        <-> completed (playerState game) = false
            /\ completed (playerState game') = true)
    /\ (fst (submitGuess now guess st) = false ->
        streak (playerState game') = streak (playerState game)
        /\ storage (snd (submitGuess now guess st)) = storage st).
Proof.
  intros Hgame.
  destruct (completed (playerState game)) eqn:Hdone.
  { exists game. unfold submitGuess. rewrite Hgame, Hdone. cbn [fst snd].
    split; [exact Hgame |]. split; [split; [discriminate | intros [? _]; discriminate] |].
    intros _. split; reflexivity. }
  destruct (Z.leb_spec MAX_GUESSES (Z.of_nat (List.length (guesses (playerState game)))))
    as [Hfull | Hroom].
  { exists game. unfold submitGuess. rewrite Hgame, Hdone.
    destruct (Z.leb_spec MAX_GUESSES (Z.of_nat (List.length (guesses (playerState game)))));
      [| lia].
    cbn [fst snd setError currentGame storage].
    split; [exact Hgame |]. split; [split; [discriminate | intros [_ ?]; congruence] |].
    intros _. split; reflexivity. }
  destruct (existsb (fun item => (normalizeInline (guess_text item)
                                  =? normalizeInline guess)%string)
                    (guesses (playerState game))) eqn:Htried.
  { exists game. unfold submitGuess. rewrite Hgame, Hdone.
    destruct (Z.leb_spec MAX_GUESSES (Z.of_nat (List.length (guesses (playerState game)))));
      [lia |].
    rewrite Htried. cbn [fst snd setError currentGame storage].
    split; [exact Hgame |]. split; [split; [discriminate | intros [_ ?]; congruence] |].
    intros _. split; reflexivity. }
  destruct (submitGuess_accepted now guess st game Hgame Hdone Hroom Htried)
    as (ps' & Hgame' & _ & _ & _ & Hcompleted & _ & Hkeep).
  exists (withPlayerState game ps'). rewrite withPlayerState_playerState.
  split; [exact Hgame' |]. split.
  - rewrite Hcompleted. split; [intros H; split; [reflexivity | exact H] | intros [_ H]; exact H].
  - exact Hkeep.
Qed.

Lemma submitGuess_true_iff_completes_witness :
  exists game',
    currentGame (snd (submitGuess 1770163245000 "Wholesome!" Sample.missedStore))
    = Some game'
    /\ (fst (submitGuess 1770163245000 "Wholesome!" Sample.missedStore) = true
        <-> completed (playerState Sample.missedGame) = false
            /\ completed (playerState game') = true)
    /\ (fst (submitGuess 1770163245000 "Wholesome!" Sample.missedStore) = false ->
        streak (playerState game') = streak (playerState Sample.missedGame)
        /\ storage (snd (submitGuess 1770163245000 "Wholesome!" Sample.missedStore))
           = storage Sample.missedStore).
Proof.
  apply (submitGuess_true_iff_completes 1770163245000 "Wholesome!" Sample.missedStore
           Sample.missedGame).
  reflexivity.
Defined.

(** ** Unlocking hints *)

(** X17. [unlockHint] on a well-formed state unlocks exactly one more
    hint unless the day is completed or all three hints are unlocked, in
    which case it changes nothing; it never touches guesses, score, streak,
    error or storage, never hides a hint that was shown, and leaves the
    state well-formed. *)
Theorem unlockHint_one_step (st : Store) (game : DailyGameState) :
  currentGame st = Some game ->
  StoreOk st ->
  exists game',
    currentGame (unlockHint st) = Some game'
    /\ hintsUnlocked (playerState game')
       = (if completed (playerState game) || (hintsUnlocked (playerState game) =? 3)
          then hintsUnlocked (playerState game)
          else hintsUnlocked (playerState game) + 1)
    /\ guesses (playerState game') = guesses (playerState game)
    /\ score (playerState game') = score (playerState game)
    /\ completed (playerState game') = completed (playerState game)
    /\ streak (playerState game') = streak (playerState game)
    /\ game_puzzle game' = game_puzzle game
    /\ error (unlockHint st) = error st
    /\ storage (unlockHint st) = storage st
    /\ (exists more,
          getHintSet (game_puzzle game') (hintsUnlocked (playerState game'))
          = (getHintSet (game_puzzle game) (hintsUnlocked (playerState game)) ++ more)%list)
    /\ StoreOk (unlockHint st).
Proof.
  intros Hgame Hok. unfold StoreOk in Hok. rewrite Hgame in Hok.
  pose proof Hok as (Hlen & Hdistinct & Hh & Hfront & Hcompleted & Hzero & Hscore).
  unfold unlockHint, StoreOk. rewrite Hgame.
  destruct (completed (playerState game)) eqn:Hdone.
  { exists game. rewrite Hgame. cbn [orb].
    do 9 (split; [first [exact Hgame | reflexivity | assumption] |]).
    split; [exists []; rewrite app_nil_r; reflexivity | exact Hok]. }
  cbn [orb].
  destruct (Z.eqb_spec (hintsUnlocked (playerState game)) 3) as [H3 | H3].
  { replace (Z.min 3 (hintsUnlocked (playerState game) + 1))
      with (hintsUnlocked (playerState game)) by lia.
    rewrite Z.eqb_refl, Hgame. exists game.
    do 9 (split; [first [exact Hgame | reflexivity | assumption] |]).
    split; [exists []; rewrite app_nil_r; reflexivity | exact Hok]. }
  rewrite Z.min_r by lia.
  destruct (Z.eqb_spec (hintsUnlocked (playerState game) + 1)
              (hintsUnlocked (playerState game))); [lia |].
  eexists. cbn [setCurrentGame currentGame error storage withPlayerState playerState
                hintsUnlocked guesses score completed streak game_puzzle].
  do 9 (split; [reflexivity |]).
  split.
  - rewrite !getHintSet_firstn. apply firstn_app_skipn_le.
    cbn [withPlayerState playerState hintsUnlocked]. lia.
  - unfold PlayerOk. cbn [hintsUnlocked guesses score completed streak].
    split; [exact Hlen |]. split; [exact Hdistinct |]. split; [lia |].
    split; [exact Hfront |]. split; [exact Hcompleted |].
    split; [exact Hzero | discriminate].
Qed.

Lemma unlockHint_one_step_witness :
  exists game',
    currentGame (unlockHint Sample.missedStore) = Some game'
    /\ hintsUnlocked (playerState game') = 2.
Proof.
  destruct (unlockHint_one_step Sample.missedStore Sample.missedGame)
    as (game' & Hgame' & Hhints & _).
  - reflexivity.
  - unfold StoreOk, PlayerOk. simpl.
    split; [unfold MAX_GUESSES; lia |].
    split; [constructor; [intros [] | constructor] |].
    split; [lia |]. split; [constructor |]. split; [reflexivity |].
    split; [reflexivity | discriminate].
  - exists game'. split; [exact Hgame' | exact Hhints].
Defined.

(** ** The board and the store *)

Lemma existsb_pointwise {A : Type} (f g : A -> bool) (l : list A) :
  (forall x, f x = g x) -> existsb f l = existsb g l.
Proof.
  intros Hfg. induction l as [| x rest IH]; simpl; [| rewrite Hfg, IH]; reflexivity.
Qed.

(** X18. The guess form and the store agree on repeated guesses: an input
    the form hands on is the trimmed input, is not empty, and is taken by
    an open game with room as one more guess; it is never refused as
    already tried. *)
Theorem boardForwards_is_taken (input g : string) (now : Z) (st : Store)
        (game : DailyGameState) :
  boardForwards input (guesses (playerState game)) = Some g ->
  currentGame st = Some game ->
  completed (playerState game) = false ->
  Z.of_nat (List.length (guesses (playerState game))) < MAX_GUESSES ->
  g = Str.trim input
  /\ g <> ""
  /\ exists game' taken,
       currentGame (snd (submitGuess now g st)) = Some game'
       /\ guesses (playerState game') = (guesses (playerState game) ++ [taken])%list
       /\ guess_text taken = g
       /\ error (snd (submitGuess now g st)) <> Some "You already tried that guess.".
Proof.
  unfold boardForwards. intros Hboard Hgame Hopen Hroom.
  destruct (String.eqb_spec (Str.trim input) "") as [| Hne]; [discriminate |].
  destruct (existsb _ (guesses (playerState game))) eqn:Hdup; [discriminate |].
  injection Hboard as <-.
  split; [reflexivity |]. split; [exact Hne |].
  assert (Hnew : existsb (fun item => (normalizeInline (guess_text item)
                                       =? normalizeInline (Str.trim input))%string)
                         (guesses (playerState game)) = false).
  { rewrite <- Hdup. apply existsb_pointwise. intros item.
    rewrite !normalizeInline_spec, !stripNonAlnum_spec. reflexivity. }
  destruct (submitGuess_accepted now (Str.trim input) st game Hgame Hopen Hroom Hnew)
    as (ps' & Hgame' & _ & Hguesses & _).
  eexists; eexists. rewrite Hgame', withPlayerState_playerState.
  split; [reflexivity |]. split; [exact Hguesses |]. split; [reflexivity |].
  unfold submitGuess. rewrite Hgame, Hopen.
  destruct (Z.leb_spec MAX_GUESSES (Z.of_nat (List.length (guesses (playerState game)))));
    [lia |].
  rewrite Hnew.
  destruct (correct (evaluateGuess (Str.trim input) (puzzle_answer (game_puzzle game)))).
  - destruct (updateStreak (game_dayKey game) (storage st)). cbn. discriminate.
  - cbn [snd].
    destruct (MAX_GUESSES <=? _); cbn [setError error]; [discriminate |].
    unfold guessesLeftMessage. simpl. discriminate.
Qed.

Lemma boardForwards_is_taken_witness :
  "chaos" = Str.trim "  chaos "
  /\ "chaos" <> ""
  /\ exists game' taken,
       currentGame (snd (submitGuess 1770163210000 "chaos" Sample.freshStore)) = Some game'
       /\ guesses (playerState game')
          = (guesses (playerState Sample.freshGame) ++ [taken])%list
       /\ guess_text taken = "chaos"
       /\ error (snd (submitGuess 1770163210000 "chaos" Sample.freshStore))
          <> Some "You already tried that guess.".
Proof.
  apply (boardForwards_is_taken "  chaos " "chaos" 1770163210000 Sample.freshStore
           Sample.freshGame).
  - vm_compute. reflexivity.
  - reflexivity.
  - reflexivity.
  - vm_compute. reflexivity.
Defined.

(** ** Stored clues *)

Lemma lookupDay_assignDay_same (k : string) (clues : list CommunityClue)
      (days : list (string * list CommunityClue)) :
  lookupDay k (assignDay k clues days) = Some clues.
Proof.
  induction days as [| [k0 old] rest IH]; simpl.
  - rewrite String.eqb_refl. reflexivity.
  - destruct (String.eqb_spec k0 k) as [-> | Hne]; simpl.
    + rewrite String.eqb_refl. reflexivity.
    + destruct (String.eqb_spec k0 k); [contradiction | exact IH].
Qed.




(** ** Ranking what was stored *)

Lemma revalidates_viaJson (c : CommunityClue) :
  Spec.revalidates (viaJson c) = Spec.revalidates c.
Proof. reflexivity. Qed.

Lemma compareClues_viaJson (a b : CommunityClue) :
  compareClues a b <= 0 -> compareClues (viaJson a) (viaJson b) <= 0.
Proof.
  unfold compareClues, clueScore, clueTime. cbn [viaJson clue_upvotes clue_modBoost
                                                clue_createdAt].
  destruct (negb (_ =? _)); lia.
Qed.

Lemma StronglySorted_map_viaJson (l : list CommunityClue) :
  StronglySorted (fun a b => compareClues a b <= 0) l ->
  StronglySorted (fun a b => compareClues a b <= 0) (map viaJson l).
Proof.
  induction 1 as [| x rest _ IH Hall]; simpl; constructor; [exact IH |].
  apply Forall_map. eapply Forall_impl; [| exact Hall].
  intros b. apply compareClues_viaJson.
Qed.

(** X20. Stored clues keep their ranking. Ranking a list, passing the
    result through [JSON] as storage does, and ranking it again with the
    same limit gives the stored list in the stored order, although the
    creation dates that broke the ties are gone. *)
Theorem rankCommunityClues_survives_storage (clues : list CommunityClue) (limit : option Z) :
  0 <= effectiveLimit limit ->
  rankCommunityClues (map viaJson (rankCommunityClues clues limit)) limit
  = map viaJson (rankCommunityClues clues limit).
Proof.
  intros Hlimit.
  rewrite (rankCommunityClues_unfold _ limit Hlimit).
  rewrite (rankCommunityClues_unfold clues limit Hlimit).
  set (n := Z.to_nat (effectiveLimit limit)).
  assert (Hvalid : Forall (fun c => Spec.revalidates c = true)
                     (map viaJson (firstn n (sortBy compareClues
                                                (filter Spec.revalidates clues))))).
  { apply Forall_map. eapply Forall_impl; [| apply ranked_all_revalidate].
    intros c Hc. rewrite revalidates_viaJson. exact Hc. }
  rewrite (filter_fixes_Forall _ _ Hvalid).
  rewrite sortBy_of_sorted
    by (apply StronglySorted_map_viaJson, StronglySorted_firstn, sortBy_compareClues_sorted).
  apply firstn_all2. rewrite length_map, length_firstn. lia.
Qed.

Lemma rankCommunityClues_survives_storage_witness :
  rankCommunityClues (map viaJson (rankCommunityClues Sample.clues None)) None
  = map viaJson (rankCommunityClues Sample.clues None).
Proof.
  apply (rankCommunityClues_survives_storage Sample.clues None). simpl. lia.
Defined.

(** ** Starting a day *)

(** on a bank that is not empty the selection holds a puzzle of the bank *)
Lemma pickDailyPuzzle_some (d : JsDate.t) (bank : list Puzzle) :
  bank <> [] ->
  exists p i,
    In p bank
    /\ pickDailyPuzzle d bank
       = Ok {| dayKey := toUtcDayKey d; seed := daySeed (toUtcDayKey d);
               index := i; puzzle := Some p |}.
Proof.
  intros Hne. rewrite (pickDailyPuzzle_nonempty d bank Hne).
  assert (Hn : 1 <= Z.of_nat (List.length bank)).
  { destruct bank; [contradiction | cbn [List.length]; lia]. }
  set (s := daySeed (toUtcDayKey d)).
  set (n := Z.of_nat (List.length bank)) in *.
  pose proof (floorDrawTimes_range (firstDrawNumerator s) n
                (firstDrawNumerator_range s) Hn) as Hidx.
  destruct (nth_error bank (Z.to_nat (floorDrawTimes (firstDrawNumerator s) n)))
    as [p |] eqn:Hnth.
  - exists p. eexists. split; [eapply nth_error_In; exact Hnth | reflexivity].
  - exfalso. apply nth_error_None in Hnth. subst n. lia.
Qed.




(** X22. [createDailyGameSnapshot] throws exactly on the empty bank;
    otherwise it describes a puzzle of the bank under the day key of the
    instant, and its public hint is the hint [getHintSet] shows with one
    hint unlocked. *)
Theorem createDailyGameSnapshot_describes_pick (d : JsDate.t) (bank : list Puzzle) :
  ((exists message, createDailyGameSnapshot d bank = Throw message) <-> bank = [])
  /\ (bank <> [] ->
      exists snap p,
        createDailyGameSnapshot d bank = Ok snap
        /\ In p bank
        /\ snap_dayKey snap = toUtcDayKey d
        /\ snap_puzzleId snap = puzzle_id p
        /\ snap_title snap = puzzle_title p
        /\ snap_category snap = puzzle_category p
        /\ snap_subredditTags snap = puzzle_subredditTags p
        /\ snap_publicHint snap = nth_error (getHintSet p 1) 0).
Proof.
  assert (Hok : bank <> [] ->
      exists snap p,
        createDailyGameSnapshot d bank = Ok snap
        /\ In p bank
        /\ snap_dayKey snap = toUtcDayKey d
        /\ snap_puzzleId snap = puzzle_id p
        /\ snap_title snap = puzzle_title p
        /\ snap_category snap = puzzle_category p
        /\ snap_subredditTags snap = puzzle_subredditTags p
        /\ snap_publicHint snap = nth_error (getHintSet p 1) 0).
  { intros Hne.
    destruct (pickDailyPuzzle_some d bank Hne) as (p & i & Hin & Hpick).
    unfold createDailyGameSnapshot. rewrite Hpick. cbn [puzzle dayKey].
    eexists; exists p. split; [reflexivity |]. split; [exact Hin |].
    cbn [snap_dayKey snap_puzzleId snap_title snap_category snap_subredditTags
         snap_publicHint].
    do 5 (split; [reflexivity |]).
    rewrite getHintSet_firstn. destruct (puzzle_hints p); reflexivity. }
  split; [| exact Hok].
  split.
  - intros [message Hthrow]. destruct bank as [| p rest]; [reflexivity |].
    destruct Hok as (snap & q & Hsnap & _); [discriminate |]. congruence.
  - intros ->. eexists. reflexivity.
Qed.

Lemma createDailyGameSnapshot_describes_pick_witness :
  exists snap p,
    createDailyGameSnapshot Sample.morning Sample.bank = Ok snap
    /\ In p Sample.bank
    /\ snap_dayKey snap = toUtcDayKey Sample.morning
    /\ snap_puzzleId snap = puzzle_id p
    /\ snap_title snap = puzzle_title p
    /\ snap_category snap = puzzle_category p
    /\ snap_subredditTags snap = puzzle_subredditTags p
    /\ snap_publicHint snap = nth_error (getHintSet p 1) 0.
Proof.
  apply (proj2 (createDailyGameSnapshot_describes_pick Sample.morning Sample.bank)).
  discriminate.
Defined.

(** ** Submitting a clue *)

Lemma newLocalClue_revalidates (now rand : Z) (clue : string)
      (options : CommunityClueOptions) :
  valid (validateCommunityClue clue options) = true ->
  Spec.revalidates (newLocalClue now rand clue) = true.
Proof.
  intros Hvalid. unfold Spec.revalidates. cbn [newLocalClue clue_text].
  assert (Htrim : validateCommunityClue (Str.trim clue) noOptions
                  = validateCommunityClue clue noOptions).
  { unfold validateCommunityClue. rewrite trim_idempotent. reflexivity. }
  rewrite Htrim.
  apply (validate_monotone clue options noOptions); [| | exact Hvalid];
    intros x Hx; destruct Hx.
Qed.

(** X23. A refused clue changes nothing but the message. When the player
    already has a clue among the day's clues the message is "You already
    submitted a clue for today."; otherwise, when the validator rejects
    the text against the answer and the existing clues, the message is the
    validator's reason, never the fallback "Invalid clue.". The call
    returns false; game and storage are as before. *)
Theorem submitClue_refused (now rand : Z) (clue : string) (s : Session)
        (game : DailyGameState) :
  currentGame (store s) = Some game ->
  hasLocalClue game = true
  \/ valid (validateCommunityClue clue (clueOptionsOf game)) = false ->
  fst (submitClue now rand clue s) = false
  /\ currentGame (store (snd (submitClue now rand clue s))) = Some game
  /\ storage (store (snd (submitClue now rand clue s))) = storage (store s)
  /\ cluesEntry (snd (submitClue now rand clue s)) = cluesEntry s
  /\ error (store (snd (submitClue now rand clue s)))
     = Some (if hasLocalClue game then "You already submitted a clue for today."
             else reason (validateCommunityClue clue (clueOptionsOf game)))
  /\ error (store (snd (submitClue now rand clue s))) <> Some "Invalid clue.".
Proof.
  intros Hgame Hwhy. unfold submitClue. rewrite Hgame.
  destruct (hasLocalClue game) eqn:Hlocal.
  { cbn [fst snd store cluesEntry setError currentGame storage error].
    do 4 (split; [first [reflexivity | exact Hgame] |]). split; [reflexivity | discriminate]. }
  destruct Hwhy as [? | Hinvalid]; [discriminate |].
  rewrite Hinvalid. cbn [negb fst snd store cluesEntry setError currentGame storage error].
  destruct (validateCommunityClue_reason clue (clueOptionsOf game)) as [Hiff Hreason].
  destruct (String.eqb_spec (reason (validateCommunityClue clue (clueOptionsOf game))) "");
    [contradiction |].
  do 4 (split; [first [reflexivity | exact Hgame] |]). split; [reflexivity |].
  revert Hinvalid. unfold validateCommunityClue.
  repeat match goal with
         | |- context [if ?b then _ else _] => destruct b
         end; cbn [valid reason]; intros; discriminate.
Qed.

Lemma submitClue_refused_witness :
  fst (submitClue 1770163300000 4242 "wholesome vibes only" Demo.quiet) = false
  /\ currentGame (store (snd (submitClue 1770163300000 4242 "wholesome vibes only"
                                Demo.quiet))) = Some Sample.freshGame
  /\ storage (store (snd (submitClue 1770163300000 4242 "wholesome vibes only"
                            Demo.quiet))) = storage (store Demo.quiet)
  /\ cluesEntry (snd (submitClue 1770163300000 4242 "wholesome vibes only" Demo.quiet))
     = cluesEntry Demo.quiet
  /\ error (store (snd (submitClue 1770163300000 4242 "wholesome vibes only" Demo.quiet)))
     = Some (if hasLocalClue Sample.freshGame
             then "You already submitted a clue for today."
             else reason (validateCommunityClue "wholesome vibes only"
                            (clueOptionsOf Sample.freshGame)))
  /\ error (store (snd (submitClue 1770163300000 4242 "wholesome vibes only" Demo.quiet)))
     <> Some "Invalid clue.".
Proof.
  apply (submitClue_refused 1770163300000 4242 "wholesome vibes only" Demo.quiet
           Sample.freshGame).
  - reflexivity.
  - right. vm_compute. reflexivity.
Defined.

(** the session after a call of [submitClue] that was not refused *)
Lemma submitClue_taken (now rand : Z) (clue : string) (s : Session)
      (game : DailyGameState) :
  currentGame (store s) = Some game ->
  hasLocalClue game = false ->
  valid (validateCommunityClue clue (clueOptionsOf game)) = true ->
  submitClue now rand clue s
  = (true,
     {| store :=
          setError None
            (setCurrentGame
               (withCommunityClues game
                  (rankCommunityClues (communityClues game ++ [newLocalClue now rand clue])
                                      (Some 5)))
               (store s));
        cluesEntry :=
          saveStoredClues (game_dayKey game)
            (rankCommunityClues (communityClues game ++ [newLocalClue now rand clue])
                                (Some 5))
            (writable (storage (store s))) (cluesEntry s) |}).
Proof.
  intros Hgame Hlocal Hvalid. unfold submitClue. rewrite Hgame, Hlocal, Hvalid.
  reflexivity.
Qed.

Lemma ranked5_unfold (clues : list CommunityClue) :
  rankCommunityClues clues (Some 5)
  = firstn 5 (sortBy compareClues (filter Spec.revalidates clues)).
Proof. apply (rankCommunityClues_unfold clues (Some 5)). simpl. lia. Qed.

Lemma hasLocalClue_of_member (game : DailyGameState) (c : CommunityClue) :
  In c (communityClues game) -> clue_author c = LOCAL_PLAYER -> hasLocalClue game = true.
Proof.
  intros Hin Hauthor. unfold hasLocalClue. apply existsb_exists.
  exists c. split; [exact Hin | apply String.eqb_eq, Hauthor].
Qed.

(** X24. An accepted clue. When the player has no clue yet and the
    validator accepts the text, [submitClue] returns true, clears the
    error and replaces the day's clues by the ranking of the old clues and
    the new one, at most five, each an old clue or the new one and each
    within the length and link rules; guesses, hints, score and streak are
    untouched. While fewer than five old clues pass the validator the new
    clue is among the shown ones, and every further clue of the player is
    refused; with writable storage that holds readable text the shown
    clues are what is stored for the day. *)
Theorem submitClue_accepted (now rand : Z) (clue : string) (s : Session)
        (game : DailyGameState) :
  currentGame (store s) = Some game ->
  hasLocalClue game = false ->
  valid (validateCommunityClue clue (clueOptionsOf game)) = true ->
  let after := snd (submitClue now rand clue s) in
  let shown := rankCommunityClues (communityClues game ++ [newLocalClue now rand clue])
                                  (Some 5) in
  fst (submitClue now rand clue s) = true
  /\ currentGame (store after) = Some (withCommunityClues game shown)
  /\ error (store after) = None
  /\ storage (store after) = storage (store s)
  /\ (List.length shown <= 5)%nat
  /\ (forall c, In c shown ->
                (In c (communityClues game) \/ c = newLocalClue now rand clue)
                /\ Spec.lengthAndLinkOk (clue_text c))
  /\ ((List.length (filter Spec.revalidates (communityClues game)) < 5)%nat ->
      In (newLocalClue now rand clue) shown
      /\ forall now' rand' clue',
           fst (submitClue now' rand' clue' after) = false
           /\ error (store (snd (submitClue now' rand' clue' after)))
              = Some "You already submitted a clue for today.")
  /\ (writable (storage (store s)) = true -> cluesEntry s <> CluesCorrupt ->
      getStoredClues (game_dayKey game) (cluesEntry after) = map viaJson shown).
Proof.
  intros Hgame Hlocal Hvalid after shown. unfold after.
  rewrite (submitClue_taken now rand clue s game Hgame Hlocal Hvalid).
  cbn [fst snd store cluesEntry setError setCurrentGame currentGame error storage].
  fold shown.
  do 4 (split; [reflexivity |]).
  assert (Hshown : shown = firstn 5 (sortBy compareClues
                                       (filter Spec.revalidates
                                          (communityClues game ++ [newLocalClue now rand clue]))))
    by apply ranked5_unfold.
  assert (Hnew : Spec.revalidates (newLocalClue now rand clue) = true)
    by (apply (newLocalClue_revalidates now rand clue _ Hvalid)).
  split; [rewrite Hshown, length_firstn; lia |].
  split.
  { intros c Hc. rewrite Hshown in Hc. apply firstn_In in Hc.
    apply (Permutation_in c (sortBy_perm compareClues _)) in Hc.
    apply filter_In in Hc as [Hin Hc]. split.
    - apply in_app_or in Hin as [Hin | [<- | []]]; [left; exact Hin | right; reflexivity].
    - apply validate_noOptions, Hc. }
  split.
  { intros Hfew.
    assert (Hin : In (newLocalClue now rand clue) shown).
    { rewrite Hshown, firstn_all2.
      - apply (Permutation_in _ (Permutation_sym (sortBy_perm compareClues _))).
        apply filter_In. split; [apply in_or_app; right; left; reflexivity | exact Hnew].
      - rewrite (Permutation_length (sortBy_perm compareClues _)).
        rewrite filter_app, length_app. cbn [filter]. rewrite Hnew. cbn [List.length]. lia. }
    split; [exact Hin |].
    intros now' rand' clue'. unfold submitClue.
    cbn [store currentGame setError setCurrentGame].
    rewrite (hasLocalClue_of_member (withCommunityClues game shown)
               (newLocalClue now rand clue) Hin eq_refl).
    split; reflexivity. }
  intros Hw Hentry. rewrite Hw.
  destruct (cluesEntry s) as [| | days]; [| contradiction |];
    cbn [saveStoredClues getStoredClues]; rewrite lookupDay_assignDay_same; reflexivity.
Qed.

Lemma submitClue_accepted_witness :
  fst (submitClue 1770163300000 4242 "  Strangers being kind " Demo.quiet) = true
  /\ currentGame (store (snd (submitClue 1770163300000 4242 "  Strangers being kind "
                                Demo.quiet)))
     = Some (withCommunityClues Sample.freshGame
               [newLocalClue 1770163300000 4242 "  Strangers being kind "]).
Proof.
  destruct (submitClue_accepted 1770163300000 4242 "  Strangers being kind " Demo.quiet
              Sample.freshGame) as (Hret & Hgame & _).
  - reflexivity.
  - reflexivity.
  - vm_compute. reflexivity.
  - split; [exact Hret |]. rewrite Hgame. reflexivity.
Defined.

(** ** A clue that is accepted and lost *)

Lemma filter_Permutation {A : Type} (keep : A -> bool) (l l' : list A) :
  Permutation l l' -> Permutation (filter keep l) (filter keep l').
Proof.
  induction 1 as [| x l l' _ IH | x y l | l l' l'' _ IH1 _ IH2]; simpl.
  - constructor.
  - destruct (keep x); [constructor |]; exact IH.
  - destruct (keep x), (keep y); try reflexivity. apply perm_swap.
  - etransitivity; eassumption.
Qed.

Lemma filter_filter {A : Type} (f g : A -> bool) (l : list A) :
  filter f (filter g l) = filter (fun x => g x && f x) l.
Proof.
  induction l as [| x rest IH]; simpl; [reflexivity |].
  destruct (g x); simpl; [destruct (f x) |]; rewrite ?IH; reflexivity.
Qed.

(** in a ranked list the clues at or above a score come first *)
Lemma sorted_above_first (threshold : Z) (l : list CommunityClue) :
  StronglySorted (fun a b => compareClues a b <= 0) l ->
  exists below,
    l = (filter (fun c => threshold <=? Spec.rankScore c) l ++ below)%list.
Proof.
  induction 1 as [| x rest _ [below IH] Hall]; [exists []; reflexivity |].
  cbn [filter]. destruct (Z.leb_spec threshold (Spec.rankScore x)) as [Hx | Hx].
  - exists below. cbn [app]. rewrite <- IH. reflexivity.
  - exists (x :: rest).
    replace (filter (fun c => threshold <=? Spec.rankScore c) rest) with (@nil CommunityClue);
      [reflexivity |].
    symmetry. clear IH. induction Hall as [| y rest' Hy _ IH']; [reflexivity |].
    cbn [filter]. apply compareClues_before in Hy. unfold Spec.RanksBefore in Hy.
    destruct (Z.leb_spec threshold (Spec.rankScore y)); [lia | exact IH'].
Qed.

Lemma existsb_false_subset {A : Type} (f : A -> bool) (l l' : list A) :
  existsb f l = false -> (forall x, In x l' -> In x l) -> existsb f l' = false.
Proof.
  intros Hl Hsub. destruct (existsb f l') eqn:Hl'; [| reflexivity].
  apply existsb_exists in Hl' as (x & Hin & Hx).
  assert (existsb f l = true) by (apply existsb_exists; exists x; split; auto).
  congruence.
Qed.

(** X25. An accepted clue can be lost. When five or more of the day's
    clues pass the validator with a combined score of at least 2,
    [submitClue] still returns true for a valid clue of a player without a
    clue, but the shown clues are five of the old ones, each with a score
    of at least 2: the new clue, whose score is 1, is neither shown nor
    stored, and the player still counts as having no clue. *)
Theorem submitClue_crowded_out (now rand : Z) (clue : string) (s : Session)
        (game : DailyGameState) :
  currentGame (store s) = Some game ->
  hasLocalClue game = false ->
  valid (validateCommunityClue clue (clueOptionsOf game)) = true ->
  (5 <= List.length (filter outranksFresh (communityClues game)))%nat ->
  exists game',
    fst (submitClue now rand clue s) = true
    /\ currentGame (store (snd (submitClue now rand clue s))) = Some game'
    /\ List.length (communityClues game') = 5%nat
    /\ (forall c, In c (communityClues game') ->
                  In c (communityClues game) /\ 2 <= Spec.rankScore c)
    /\ ~ In (newLocalClue now rand clue) (communityClues game')
    /\ hasLocalClue game' = false.
Proof.
  intros Hgame Hlocal Hvalid Hcrowd.
  rewrite (submitClue_taken now rand clue s game Hgame Hlocal Hvalid).
  cbn [fst snd store setError setCurrentGame currentGame].
  eexists. split; [reflexivity |]. split; [reflexivity |].
  cbn [withCommunityClues communityClues].
  rewrite ranked5_unfold.
  set (new := newLocalClue now rand clue).
  set (valid := filter Spec.revalidates (communityClues game ++ [new])).
  pose proof (sortBy_perm compareClues valid) as Hperm.
  destruct (sorted_above_first 2 _ (sortBy_compareClues_sorted valid)) as [below Hsplit].
  set (above := filter (fun c => 2 <=? Spec.rankScore c) (sortBy compareClues valid)) in *.
  assert (Habove : (5 <= List.length above)%nat).
  { unfold above.
    rewrite (Permutation_length (filter_Permutation _ _ _ Hperm)).
    unfold valid. rewrite filter_filter, filter_app, length_app.
    unfold outranksFresh in Hcrowd. lia. }
  assert (Hfirst : firstn 5 (sortBy compareClues valid) = firstn 5 above).
  { rewrite Hsplit at 1. rewrite firstn_app.
    replace (5 - List.length above)%nat with 0%nat by lia.
    cbn [firstn]. apply app_nil_r. }
  rewrite Hfirst.
  assert (Hmember : forall c, In c (firstn 5 above) ->
                              In c (communityClues game) /\ 2 <= Spec.rankScore c).
  { intros c Hc. apply firstn_In in Hc. unfold above in Hc.
    apply filter_In in Hc as [Hc Hscore]. apply Z.leb_le in Hscore.
    apply (Permutation_in c Hperm) in Hc. unfold valid in Hc.
    apply filter_In in Hc as [Hc _].
    apply in_app_or in Hc as [Hc | [<- | []]]; [split; assumption |].
    exfalso. unfold new, Spec.rankScore in Hscore. cbn in Hscore. lia. }
  split; [rewrite length_firstn; lia |].
  split; [exact Hmember |].
  split.
  - intros Hin. apply Hmember in Hin as [_ Hscore].
    unfold new, Spec.rankScore in Hscore. cbn in Hscore. lia.
  - unfold hasLocalClue in *. cbn [communityClues].
    apply (existsb_false_subset _ _ _ Hlocal). intros c Hc. apply Hmember, Hc.
Qed.

Lemma submitClue_crowded_out_witness :
  exists game',
    fst (submitClue 1770163300000 4242 "A stranger paid my bill" Demo.crowded) = true
    /\ currentGame (store (snd (submitClue 1770163300000 4242 "A stranger paid my bill"
                                  Demo.crowded))) = Some game'
    /\ List.length (communityClues game') = 5%nat
    /\ (forall c, In c (communityClues game') ->
                  In c Demo.crowd /\ 2 <= Spec.rankScore c)
    /\ ~ In (newLocalClue 1770163300000 4242 "A stranger paid my bill")
            (communityClues game')
    /\ hasLocalClue game' = false.
Proof.
  apply (submitClue_crowded_out 1770163300000 4242 "A stranger paid my bill" Demo.crowded
           (withCommunityClues Sample.freshGame Demo.crowd)).
  - reflexivity.
  - reflexivity.
  - vm_compute. reflexivity.
  - vm_compute. lia.
Defined.

(** ** Guesses without letters or digits *)

Lemma evaluateGuess_blank (guess answer : string) :
  Spec.normalize guess = "" -> correct (evaluateGuess guess answer) = false.
Proof.
  intros Hblank. unfold evaluateGuess; cbn [correct].
  rewrite normalizeText_spec, Hblank. reflexivity.
Qed.

(** X26. A guess of ASCII punctuation, symbols and white space only
    counts. In an open game with room, such a guess is never correct; when
    no earlier guess has an empty normal form it is taken as a wrong guess:
    it uses up one of the six guesses and the score stays 0; when an
    earlier guess was of that kind too, whatever its characters, it is
    refused as already tried. *)
Theorem submitGuess_without_letters (now : Z) (guess : string) (st : Store)
        (game : DailyGameState) :
  currentGame st = Some game ->
  completed (playerState game) = false ->
  Z.of_nat (List.length (guesses (playerState game))) < MAX_GUESSES ->
  Str.forallb Spec.isAsciiNonAlnum guess = true ->
  fst (submitGuess now guess st) = false
  /\ ((exists g, In g (guesses (playerState game))
                 /\ Str.forallb Spec.isAsciiNonAlnum (guess_text g) = true) ->
      currentGame (snd (submitGuess now guess st)) = Some game
      /\ error (snd (submitGuess now guess st)) = Some "You already tried that guess.")
  /\ ((forall g, In g (guesses (playerState game)) ->
                 Spec.normalize (guess_text g) <> "") ->
      exists game',
        currentGame (snd (submitGuess now guess st)) = Some game'
        /\ List.length (guesses (playerState game'))
           = S (List.length (guesses (playerState game)))
        /\ completed (playerState game') = false
        /\ score (playerState game') = 0).
Proof.
  intros Hgame Hopen Hroom Hblank.
  pose proof (normalize_ascii_non_alnum guess Hblank) as Hempty.
  destruct (existsb (fun item => (normalizeInline (guess_text item)
                                  =? normalizeInline guess)%string)
                    (guesses (playerState game))) eqn:Htried.
  - assert (Hrefused : submitGuess now guess st
                       = (false, setError (Some "You already tried that guess.") st)).
    { unfold submitGuess. rewrite Hgame, Hopen.
      destruct (Z.leb_spec MAX_GUESSES (Z.of_nat (List.length (guesses (playerState game)))));
        [lia |].
      rewrite Htried. reflexivity. }
    rewrite Hrefused. cbn [fst snd setError currentGame error].
    split; [reflexivity |]. split; [intros _; split; [exact Hgame | reflexivity] |].
    intros Hnone. exfalso.
    apply alreadyTried_iff in Htried as (g & Hin & Hg).
    apply (Hnone g Hin). congruence.
  - destruct (submitGuess_accepted now guess st game Hgame Hopen Hroom Htried)
      as (ps' & Hgame' & Hret & Hguesses & _ & Hdone & Hscore & _).
    assert (Hwrong : fst (submitGuess now guess st) = false).
    { rewrite Hret. apply evaluateGuess_blank, Hempty. }
    split; [exact Hwrong |]. split.
    + intros (g & Hin & Hg). exfalso.
      assert (existsb (fun item => (normalizeInline (guess_text item)
                                    =? normalizeInline guess)%string)
                      (guesses (playerState game)) = true).
      { apply alreadyTried_iff. exists g. split; [exact Hin |].
        rewrite Hempty. apply normalize_ascii_non_alnum, Hg. }
      congruence.
    + intros _. exists (withPlayerState game ps').
      rewrite withPlayerState_playerState, Hguesses, Hdone, Hscore, Hwrong, length_app.
      split; [exact Hgame' |]. split; [cbn [List.length]; lia |].
      split; reflexivity.
Qed.

Lemma submitGuess_without_letters_witness :
  fst (submitGuess 1770163210000 "?!?" Sample.freshStore) = false
  /\ exists game',
       currentGame (snd (submitGuess 1770163210000 "?!?" Sample.freshStore)) = Some game'
       /\ List.length (guesses (playerState game')) = 1%nat
       /\ completed (playerState game') = false
       /\ score (playerState game') = 0.
Proof.
  destruct (submitGuess_without_letters 1770163210000 "?!?" Sample.freshStore
              Sample.freshGame) as (Hret & _ & Htaken).
  - reflexivity.
  - reflexivity.
  - vm_compute. reflexivity.
  - reflexivity.
  - split; [exact Hret |]. apply Htaken. intros g [].
Defined.

(** ** The streak a refresh shows *)

(** X27. The streak read back is the streak recorded: after
    [updateStreak] on writable storage, [getStreak], which [refreshGame]
    shows, returns the streak that [updateStreak] returned; on storage
    that cannot be written it returns what was stored before. *)
Theorem getStreak_after_updateStreak (dayKey : string) (s : Storage) :
  (writable s = true ->
   getStreak (snd (updateStreak dayKey s)) = fst (updateStreak dayKey s))
  /\ (writable s = false ->
      getStreak (snd (updateStreak dayKey s)) = getStreak s).
Proof.
  unfold updateStreak, getStreak.
  destruct (optStringEqb (lastSolvedDay (getStreakState s)) dayKey) eqn:Hsame.
  - cbn [fst snd]. split; [| reflexivity]. intros _.
    apply optStringEqb_true in Hsame. unfold getStreakState in *.
    destruct (stored_streak s) as [r |]; [apply orZero_id | discriminate].
  - cbn [fst snd]. split; intros ->; cbn [stored_streak streakDays]; [| reflexivity].
    apply orZero_id.
Qed.

Lemma getStreak_after_updateStreak_witness :
  getStreak (snd (updateStreak "2026-02-04" Sample.streakBefore))
  = fst (updateStreak "2026-02-04" Sample.streakBefore).
Proof.
  apply (proj1 (getStreak_after_updateStreak "2026-02-04" Sample.streakBefore)).
  reflexivity.
Defined.
